(** * Section-tree editor: React element trees, traversals and the section store

    Shallow embedding of
      - src/components/templates/LessonView.tsx
      - src/components/templates/SectionRenderer.tsx
      - src/components/templates/SectionInput.tsx
    React itself (isValidElement, cloneElement, Children.map, Children.forEach)
    is not part of the repository; module [React] gives the part of its
    behaviour that the traversals rely on. *)

From stdpp Require Import gmap strings list.
From Stdlib Require Import ZArith NArith DecimalString DecimalZ DecimalPos.

Local Open Scope string_scope.
Local Open Scope list_scope.

(* ===================================================================== *)
(** ** JavaScript values used by the components *)
(* ===================================================================== *)

Module Js.

Fixpoint String_drop (n : nat) (s : string) : string :=
  match n, s with
  | O, _ => s
  | S n', String _ s' => String_drop n' s'
  | S _, EmptyString => EmptyString
  end.

(** [s.startsWith(p)]. *)
Definition startsWith (s p : string) : bool := String.prefix p s.

(** [s.replace(pattern, replacement)] with a string pattern: the first
    occurrence only. *)
Fixpoint String_replace (s pattern replacement : string) : string :=
  if String.prefix pattern s then
    String.append replacement (String_drop (String.length pattern) s)
  else
    match s with
    | EmptyString => EmptyString
    | String c s' => String c (String_replace s' pattern replacement)
    end.

(** The text of an integer-valued number in a template literal. *)
Definition Number_toString (n : Z) : string :=
  NilZero.string_of_int (Z.to_int n).

(** [array.findIndex(p)]; [None] stands for [-1]. *)
Fixpoint findIndex {A : Type} (p : A -> bool) (l : list A) : option nat :=
  match l with
  | [] => None
  | x :: l' => if p x then Some 0%nat else S <$> findIndex p l'
  end.

(** Truthiness of an optional string ([undefined] and the empty string are
    falsy). *)
Definition truthyString (i : option string) : bool :=
  match i with Some s => negb (String.eqb s "") | None => false end.

(** [a || b] for an optional string [a] and a string [b]. *)
Definition or_else (a : option string) (b : string) : string :=
  match a with
  | Some s => if String.eqb s "" then b else s
  | None => b
  end.

End Js.
Import Js.

(* ===================================================================== *)
(** ** React elements *)
(* ===================================================================== *)

Module React.

(** [element.type]: a string for host (DOM) elements, the [Fragment] symbol,
    or anything else (function and class components, providers, ...). *)
Inductive ElementType :=
| Host (tag : string)
| Fragment
| Component (name : string).

#[global] Instance ElementType_eq_dec : EqDecision ElementType.
Proof. solve_decision. Defined.

(** Values found in a props bag besides [id] and [children]. Functions are
    named tokens: the traversals only ever copy them. *)
Inductive PropValue :=
| PUndefined
| PNull
| PBool (b : bool)
| PNumber (n : Z)
| PString (s : string)
| PFunction (name : string).

(** [ReactNode]. An element carries [type], [key] and its props, split into
    [props.id] (typed [id?: string] by the source), [props.children] (an absent
    property reads as [RUndefined]) and the rest of the bag. *)
Unset Elimination Schemes.
Inductive ReactNode :=
| RUndefined
| RNull
| RBool (b : bool)
| RString (s : string)
| RNumber (n : Z)
| RArray (items : list ReactNode)
| RElement (type : ElementType) (key : option string) (id : option string)
           (props : gmap string PropValue) (children : ReactNode).
Set Elimination Schemes.

Section ReactNode_induction.
Variable P : ReactNode -> Prop.
Hypothesis Hundef : P RUndefined.
Hypothesis Hnull : P RNull.
Hypothesis Hbool : forall b, P (RBool b).
Hypothesis Hstring : forall s, P (RString s).
Hypothesis Hnumber : forall n, P (RNumber n).
Hypothesis Harray : forall items, Forall P items -> P (RArray items).
Hypothesis Helement : forall type key id props children,
    P children -> P (RElement type key id props children).

Fixpoint ReactNode_induction (n : ReactNode) : P n :=
  match n with
  | RUndefined => Hundef
  | RNull => Hnull
  | RBool b => Hbool b
  | RString s => Hstring s
  | RNumber z => Hnumber z
  | RArray items =>
      Harray items
        ((fix all (l : list ReactNode) : Forall P l :=
            match l with
            | [] => List.Forall_nil P
            | x :: l' => @List.Forall_cons _ P x l' (ReactNode_induction x) (all l')
            end) items)
  | RElement type key id props children =>
      Helement type key id props children (ReactNode_induction children)
  end.
End ReactNode_induction.

Definition isValidElement (n : ReactNode) : bool :=
  match n with RElement _ _ _ _ _ => true | _ => false end.

(** JavaScript truthiness of a node value ([NaN] is not modelled). *)
Definition truthy (n : ReactNode) : bool :=
  match n with
  | RUndefined | RNull => false
  | RBool b => b
  | RString s => negb (String.eqb s "")
  | RNumber z => negb (Z.eqb z 0)
  | RArray _ | RElement _ _ _ _ _ => true
  end.

(** [x == null]. *)
Definition isNullish (n : ReactNode) : bool :=
  match n with RUndefined | RNull => true | _ => false end.

Definition props_id (n : ReactNode) : option string :=
  match n with RElement _ _ i _ _ => i | _ => None end.
Definition props_children (n : ReactNode) : ReactNode :=
  match n with RElement _ _ _ _ c => c | _ => RUndefined end.
Definition props_rest (n : ReactNode) : gmap string PropValue :=
  match n with RElement _ _ _ p _ => p | _ => ∅ end.
Definition key_of (n : ReactNode) : option string :=
  match n with RElement _ k _ _ _ => k | _ => None end.
Definition type_of (n : ReactNode) : option ElementType :=
  match n with RElement t _ _ _ _ => Some t | _ => None end.

(** [props.id === targetId]. *)
Definition id_is (i : option string) (targetId : string) : bool :=
  match i with Some s => String.eqb s targetId | None => false end.

(** React's [mapIntoArray], the traversal behind [Children.map] and
    [Children.forEach]: nested arrays are walked in order; [undefined] and
    booleans are perceived as [null]; the callback runs on every [null],
    string, number and element. [nameSoFar] is the list of array indices
    leading to the child. [onNull] is the callback at [null]. *)
Section mapIntoArray.
Context {B : Type}.
Variable onNull : list nat -> B.
Variable callback : list nat -> ReactNode -> B.

Fixpoint mapIntoArray (nameSoFar : list nat) (children : ReactNode)
  {struct children} : list B :=
  match children with
  | RUndefined | RNull | RBool _ => [onNull nameSoFar]
  | RString _ | RNumber _ | RElement _ _ _ _ _ => [callback nameSoFar children]
  | RArray items =>
      (fix each (i : nat) (l : list ReactNode) {struct l} : list B :=
         match l with
         | [] => []
         | child :: l' =>
             mapIntoArray (nameSoFar ++ [i]) child ++ each (S i) l'
         end) 0%nat items
  end.
End mapIntoArray.

(** [Children.forEach(children, fn)], threading the variables the callback
    closes over as a state [S]; nothing runs when [children == null]. *)
Definition Children_forEach_with {S : Type} (onNull : S -> S)
    (fn : ReactNode -> S -> S) (children : ReactNode) (s : S) : S :=
  if isNullish children then s
  else fold_left (fun s k => k s)
         (mapIntoArray (fun _ => onNull) (fun _ child => fn child) [] children) s.

Definition Children_forEach {S : Type} (fn : ReactNode -> S -> S) :=
  Children_forEach_with (fn RNull) fn.

(** [cloneElement(element, config, children)] called with three arguments:
    [config] is merged over the props and [props.children] becomes the third
    argument, even when that is [undefined]; [type], [key] and [props.id] are
    kept ([config] here never names [key], [ref], [id] or [children], and the
    components are taken without [defaultProps]). React throws on a
    non-element; every caller tests [isValidElement] first. *)
Definition cloneElement (element : ReactNode) (config : gmap string PropValue)
    (children : ReactNode) : ReactNode :=
  match element with
  | RElement type key id props _ => RElement type key id (config ∪ props) children
  | _ => element
  end.

Definition cloneAndReplaceKey (element : ReactNode) (newKey : string) : ReactNode :=
  match element with
  | RElement type _ id props children => RElement type (Some newKey) id props children
  | _ => element
  end.

(** [Children.map]. The entries of the array it returns are re-keyed by
    React from the position of the child, the child and the mapped child; the
    exact key text is internal to React and is a parameter here. *)
Section Children_map.
Variable childKey : list nat -> ReactNode -> ReactNode -> string.

(** What [mapIntoArray] pushes for one mapped child: nothing for [null] or
    [undefined], the flattened entries of an array, a re-keyed element, or
    the value itself. *)
Definition pushMapped (nameSoFar : list nat) (child mapped : ReactNode)
  : list ReactNode :=
  match mapped with
  | RUndefined | RNull => []
  | RArray _ =>
      concat (mapIntoArray (fun _ => [])
                (fun sub c =>
                   if isValidElement c
                   then [cloneAndReplaceKey c (childKey (nameSoFar ++ sub) child c)]
                   else [c])
                [] mapped)
  | RElement _ _ _ _ _ =>
      [cloneAndReplaceKey mapped (childKey nameSoFar child mapped)]
  | _ => [mapped]
  end.

Definition Children_map_with (onNull : ReactNode) (fn : ReactNode -> ReactNode)
    (children : ReactNode) : ReactNode :=
  if isNullish children then children
  else RArray (concat (mapIntoArray
                         (fun name => pushMapped name RNull onNull)
                         (fun name child => pushMapped name child (fn child))
                         [] children)).

Definition Children_map (fn : ReactNode -> ReactNode) :=
  Children_map_with (fn RNull) fn.
End Children_map.

End React.
Import React.

(* ===================================================================== *)
(** ** LessonView.tsx *)
(* ===================================================================== *)

Module LessonView.

(** [hasSectionId]: the callback of [Children.forEach] updates the local
    [found]; at a [null] child it calls [hasSectionId(null, _)], which is
    [false], so [found] is left as it is. *)
Fixpoint hasSectionId (element : ReactNode) (targetId : string) : bool :=
  match element with
  | RElement _ _ id _ children =>
      if id_is id targetId then true
      else
        Children_forEach_with (fun found => found)
          (fun child found =>
             if negb found && hasSectionId child targetId then true else found)
          children false
  | _ => false
  end.

(** [replaceSectionContent]. At a [null] child the callback returns the
    child, [null]. *)
Section replaceSectionContent.
Variable childKey : list nat -> ReactNode -> ReactNode -> string.

Fixpoint replaceSectionContent (element : ReactNode) (targetId : string)
    (newContent : ReactNode) : ReactNode :=
  match element with
  | RElement _ _ id _ children =>
      if id_is id targetId then
        cloneElement element ∅ newContent
      else if truthy children then
        let children' :=
          Children_map_with childKey RNull
            (fun child => replaceSectionContent child targetId newContent)
            children in
        cloneElement element ∅ children'
      else element
  | _ => element
  end.
End replaceSectionContent.

(** The [Section] component of [./Section]. *)
Definition Section_ : ElementType := Component "Section".

(** [getSectionIdFromElement]: [foundId] is the local the callback assigns;
    at a [null] child [isValidElement] fails and nothing is assigned. *)
Fixpoint getSectionIdFromElement (element : ReactNode) : option string :=
  match element with
  | RElement type _ id _ children =>
      if truthyString id && bool_decide (type = Section_) then id
      else if truthyString id then id
      else if truthy children then
        Children_forEach_with (fun foundId => foundId)
          (fun child foundId =>
             if negb (truthyString foundId) && isValidElement child
             then getSectionIdFromElement child
             else foundId)
          children None
      else None
  | _ => None
  end.

(** *** The component state and what it sends out *)

Inductive HostMessage :=
| CommitSectionReorder (sectionIds : list string)
| CommitSectionDelete (sectionId : string).

Inductive Effect :=
| PostMessage (message : HostMessage)                 (* window.parent.postMessage(_, '*') *)
| ConsoleWarn (text : string) (args : list string)    (* console.warn *)
| AddStructureEdit (sectionId content : string).      (* editing.addStructureEdit({action: 'add', ..}) *)

Record State := {
  initialSections : list ReactNode;
  loadingSections : bool
}.

(** Handlers run against the state and emit effects in order. *)
Definition M (A : Type) : Type := State -> A * State * list Effect.

Definition ret {A} (a : A) : M A := fun st => (a, st, []).
Definition bind {A B} (m : M A) (k : A -> M B) : M B :=
  fun st =>
    let '(a, st1, out1) := m st in
    let '(b, st2, out2) := k a st1 in
    (b, st2, out1 ++ out2).

Declare Scope store_scope.
Delimit Scope store_scope with store.
Notation "x <- m ;; k" := (bind m (fun x => k))
  (at level 100, m at next level, right associativity) : store_scope.
Notation "m ;; k" := (bind m (fun _ => k))
  (at level 100, right associativity) : store_scope.
Local Open Scope store_scope.

Definition getInitialSections : M (list ReactNode) :=
  fun st => (initialSections st, st, []).
Definition setInitialSections (update : list ReactNode -> list ReactNode) : M unit :=
  fun st => (tt, {| initialSections := update (initialSections st);
                    loadingSections := loadingSections st |}, []).
Definition emit (e : Effect) : M unit := fun st => (tt, st, [e]).

Definition sectionsAfter {A} (m : M A) (st : State) : list ReactNode :=
  initialSections (snd (fst (m st))).
Definition effectsOf {A} (m : M A) (st : State) : list Effect := snd (m st).

Definition FullWidthLayout : ElementType := Component "FullWidthLayout".
Definition SectionInput_ : ElementType := Component "SectionInput".

Section handlers.
Variable childKey : list nat -> ReactNode -> ReactNode -> string.

(** [handleCommitSection]; [editing] tells whether [editing], the value
    of [useOptionalEditing()] that this handler closed over in the render
    that created it, is set. The list is updated through the functional
    form of the setter, so it is the list at the time of the call. *)
Definition handleCommitSection (editing : bool) (sectionId content : string)
  : M unit :=
  setInitialSections (fun prevSections =>
    map (fun section =>
           let contentElement :=
             RElement (Host "p") None None
               {[ "className" := PString "text-lg text-gray-800 leading-relaxed" ]}
               (RString content) in
           replaceSectionContent childKey section sectionId contentElement)
        prevSections) ;;
  if editing then emit (AddStructureEdit sectionId content)
  else emit (ConsoleWarn
               "Editing context not found, cannot batch save section add" []).
End handlers.

(** The element [handleAddSection] builds for [newId]. *)
Definition newSection (newId : string) : ReactNode :=
  RElement FullWidthLayout (Some (String.append "layout-" newId)) None
    {[ "maxWidth" := PString "xl" ]}
    (RElement Section_ None (Some newId) ∅
       (RElement SectionInput_ None (Some newId)
          (<["onCommit" := PFunction "handleCommitSection"]>
             {[ "placeholder" := PString "Type '/' for commands" ]})
          RUndefined)).

(** [handleAddSection], as called from the render that shows the current
    list: the [initialSections] it closes over is the state it runs in. [now]
    is the value of [Date.now()]. *)
Definition handleAddSection (now : Z) (targetId : string) : M unit :=
  sections <- getInitialSections ;;
  let index := findIndex (fun section => hasSectionId section targetId) sections in
  match index with
  | Some index =>
      let newId := String.append "section-" (Number_toString now) in
      let newSections :=
        take (index + 1) sections ++ [newSection newId] ++ drop (index + 1) sections in
      setInitialSections (fun _ => newSections)
  | None =>
      emit (ConsoleWarn "Could not find section with id:" [targetId])
  end.

(** [handleAddSection] of the render that saw [initialSections]: the
    handler searches and slices the list it closed over and stores the result
    as a plain value, whatever the state has become since. *)
Definition handleAddSectionOf (initialSections : list ReactNode) (now : Z)
    (targetId : string) : M unit :=
  let index := findIndex (fun section => hasSectionId section targetId) initialSections in
  match index with
  | Some index =>
      let newId := String.append "section-" (Number_toString now) in
      let newSections :=
        take (index + 1) initialSections ++ [newSection newId]
          ++ drop (index + 1) initialSections in
      setInitialSections (fun _ => newSections)
  | None =>
      emit (ConsoleWarn "Could not find section with id:" [targetId])
  end.

(** The id [handleReorder] reports for one element of the new order. *)
Definition reorderSectionId (s : ReactNode) : string :=
  match key_of s with
  | Some key =>
      if truthyString (Some key) && startsWith key "layout-"
      then String_replace key "layout-" ""
      else or_else (getSectionIdFromElement s) "unknown"
  | None => or_else (getSectionIdFromElement s) "unknown"
  end.

Definition handleReorder (newSections : list ReactNode) : M unit :=
  setInitialSections (fun _ => newSections) ;;
  let sectionIds := map reorderSectionId newSections in
  emit (PostMessage (CommitSectionReorder sectionIds)).

Definition handleDeleteSection (sectionId : string) : M unit :=
  setInitialSections (fun prev =>
    List.filter (fun section => negb (hasSectionId section sectionId)) prev) ;;
  emit (PostMessage (CommitSectionDelete sectionId)).

(** *** The loading effect

    The [useEffect] body as a machine over the events that reach it: the
    promise of [loadSections] resolving, the watcher calling back, and the
    clean-up React runs on teardown. [cancelled] and [cleanup] are the two
    locals of the effect; [watchersCreated] counts the calls of
    [createSectionsWatcher]. *)
Record Loader := {
  cancelled : bool;
  cleanup : bool;              (* [cleanup] is not [null] *)
  watchersCreated : nat;
  watchersStopped : nat;       (* calls of [cleanup()] *)
  store : State
}.

Inductive LoaderEvent :=
| LoadResolved (secs : option (list ReactNode))   (* [None]: not an array *)
| WatcherUpdate (updatedSections : list ReactNode)
| Teardown.

Definition mounted : Loader :=
  {| cancelled := false; cleanup := false; watchersCreated := 0;
     watchersStopped := 0;
     store := {| initialSections := []; loadingSections := true |} |}.

(** [dev] is [import.meta.env.DEV]. *)
Definition loaderStep (dev : bool) (l : Loader) (e : LoaderEvent) : Loader :=
  match e with
  | LoadResolved secs =>
      if cancelled l then l
      else
        let loaded := default [] secs in
        let st := {| initialSections := loaded; loadingSections := false |} in
        if dev then
          {| cancelled := cancelled l; cleanup := true;
             watchersCreated := S (watchersCreated l);
             watchersStopped := watchersStopped l; store := st |}
        else
          {| cancelled := cancelled l; cleanup := cleanup l;
             watchersCreated := watchersCreated l;
             watchersStopped := watchersStopped l; store := st |}
  | WatcherUpdate updatedSections =>
      if negb (cancelled l) then
        {| cancelled := cancelled l; cleanup := cleanup l;
           watchersCreated := watchersCreated l;
           watchersStopped := watchersStopped l;
           store := {| initialSections := updatedSections;
                       loadingSections := loadingSections (store l) |} |}
      else l
  | Teardown =>
      {| cancelled := true; cleanup := cleanup l;
         watchersCreated := watchersCreated l;
         watchersStopped :=
           if cleanup l then S (watchersStopped l) else watchersStopped l;
         store := store l |}
  end.

Definition loaderRun (dev : bool) (events : list LoaderEvent) (l : Loader) : Loader :=
  fold_left (loaderStep dev) events l.

(** *** The id of a new section and what the component shows *)

(** The constant [newId] of [handleAddSection]: [`section-${Date.now()}`]. *)
Definition newId (now : Z) : string :=
  String.append "section-" (Number_toString now).

(** What [LessonView] returns: the loading screen while [loadingSections],
    else the renderer over the list when it is not empty, else the welcome
    screen. *)
Inductive Screen :=
| LoadingScreen
| WelcomeScreen
| SectionsScreen (initialSections : list ReactNode).

Definition render (st : State) : Screen :=
  if loadingSections st then LoadingScreen
  else if (0 <? length (initialSections st))%nat
       then SectionsScreen (initialSections st)
       else WelcomeScreen.

End LessonView.

(* ===================================================================== *)
(** ** SectionRenderer.tsx *)
(* ===================================================================== *)

Module SectionRenderer.

(** The object [{ isPreview, onEditSection, onAddSection }] both callers of
    [deepCloneWithProps] build: the three keys are always own properties,
    with value [undefined] when the renderer was given none. *)
Record InjectedProps := {
  isPreview : PropValue;
  onEditSection : PropValue;
  onAddSection : PropValue
}.

(** [{ ...props }]. *)
Definition spread (props : InjectedProps) : gmap string PropValue :=
  <["isPreview" := isPreview props]>
    (<["onEditSection" := onEditSection props]>
       (<["onAddSection" := onAddSection props]> ∅)).

Section deepCloneWithProps.
Variable childKey : list nat -> ReactNode -> ReactNode -> string.

Fixpoint deepCloneWithProps (element : ReactNode) (props : InjectedProps)
  : ReactNode :=
  match element with
  | RElement type _ _ _ children =>
      let isHostComponent := match type with Host _ => true | _ => false end in
      let isFragment := bool_decide (type = Fragment) in
      let shouldInjectProps := negb isHostComponent && negb isFragment in
      let clonedElement :=
        cloneElement element
          (if shouldInjectProps then spread props else ∅)
          (if truthy children
           then Children_map_with childKey RNull
                  (fun child => deepCloneWithProps child props) children
           else RUndefined) in
      clonedElement
  | _ => element
  end.
End deepCloneWithProps.

(** The value [DraggableSection] provides on [SectionContext]
    ([dragControls] is a handle of the animation library and is left out).
    [onDelete] acts on the owner of the callback, of state [S]. *)
Record SectionContextValue (S : Type) := {
  onDelete : S -> S;
  id : option string
}.
Arguments onDelete {S} _ _.
Arguments id {S} _.

Section DraggableSection.
Context {S : Type}.
Variable childKey : list nat -> ReactNode -> ReactNode -> string.

(** The constant [sectionId] of [DraggableSection]. *)
Definition sectionId (section : ReactNode) : option string :=
  if truthyString (props_id section) then props_id section
  else
    if truthy (props_children section) && isValidElement (props_children section)
    then props_id (props_children section)
    else None.

(** [handleDelete], for a resolved [sectionId] and the optional
    [onDeleteSection] callback. *)
Definition handleDelete (sectionId : option string)
    (onDeleteSection : option (string -> S -> S)) : S -> S :=
  match sectionId, onDeleteSection with
  | Some i, Some callback =>
      if truthyString (Some i) then callback i else fun s => s
  | _, _ => fun s => s
  end.

(** What [DraggableSection] renders for its [section]: the context value
    and the cloned subtree inside the provider. *)
Definition DraggableSection (section : ReactNode)
    (isPreview onEditSection onAddSection : PropValue)
    (onDeleteSection : option (string -> S -> S))
  : SectionContextValue S * ReactNode :=
  let sectionId := sectionId section in
  ({| onDelete := handleDelete sectionId onDeleteSection; id := sectionId |},
   deepCloneWithProps childKey section
     {| isPreview := isPreview; onEditSection := onEditSection;
        onAddSection := onAddSection |}).
End DraggableSection.

(** The [key] the renderer gives the wrapper of the section at [index]:
    [section.key || section.props.id || `section-${index}`]. *)
Definition draggableKey (section : ReactNode) (index : nat) : string :=
  or_else (key_of section)
    (or_else (props_id section)
       (String.append "section-" (Number_toString (Z.of_nat index)))).

(** *** The renderer *)

(** The [key] of the plain wrapper of the section at [index]:
    [section.key || `section-${index}`]. *)
Definition divKey (section : ReactNode) (index : nat) : string :=
  or_else (key_of section)
    (String.append "section-" (Number_toString (Z.of_nat index))).

(** One child of the stack: a [DraggableSection] inside the reorder group,
    or a plain [div] around the clone. *)
Inductive StackItem (S : Type) :=
| Draggable (key : string) (value : ReactNode)
            (context : SectionContextValue S) (child : ReactNode)
| Plain (key : string) (child : ReactNode).
Arguments Draggable {S} _ _ _ _.
Arguments Plain {S} _ _.

Definition itemKey {S : Type} (item : StackItem S) : string :=
  match item with Draggable k _ _ _ => k | Plain k _ => k end.
Definition itemChild {S : Type} (item : StackItem S) : ReactNode :=
  match item with Draggable _ _ _ c => c | Plain _ c => c end.

(** The children [SectionRenderer] lays out; [initialSections] defaults to
    the empty list and [isPreview] to [false]. *)
Definition SectionRenderer {S : Type}
    (childKey : list nat -> ReactNode -> ReactNode -> string)
    (initialSections : option (list ReactNode)) (isPreview : option bool)
    (onEditSection onAddSection : PropValue)
    (onReorder : option (list ReactNode -> S -> S))
    (onDeleteSection : option (string -> S -> S)) : list (StackItem S) :=
  let initialSections := default [] initialSections in
  let isPreview := PBool (default false isPreview) in
  match onReorder with
  | Some _ =>
      imap (fun index section =>
              let rendered :=
                DraggableSection childKey section isPreview onEditSection
                  onAddSection onDeleteSection in
              Draggable (draggableKey section index) section
                (fst rendered) (snd rendered))
           initialSections
  | None =>
      imap (fun index section =>
              Plain (divKey section index)
                (deepCloneWithProps childKey section
                   {| isPreview := isPreview; onEditSection := onEditSection;
                      onAddSection := onAddSection |}))
           initialSections
  end.

(** [handleReorder] of the renderer. *)
Definition handleReorder {S : Type}
    (onReorder : option (list ReactNode -> S -> S)) (newOrder : list ReactNode)
  : S -> S :=
  match onReorder with
  | Some callback => callback newOrder
  | None => fun s => s
  end.

(** *** The typesetting effect

    [window.MathJax] may be missing, and each of its two entry points may be
    missing. A call either throws or returns; what it returns is a promise,
    which fulfils or rejects, or a value that is no promise and has no
    [catch] method ([undefined], say). *)
Inductive PromiseResult := Fulfilled | Rejected.
Inductive ReturnValue := NoPromise | Promise (result : PromiseResult).
Inductive CallResult := Returned (value : ReturnValue) | Threw.

Record MathJax := {
  typesetPromise : option CallResult;
  typeset : option CallResult
}.

Inductive TypesetCall := CalledTypesetPromise | CalledTypeset.

(** What running a piece of code gave: the calls made, whether an exception
    is propagating, whether a rejected promise was left without handler. *)
Record Ran := {
  calls : list TypesetCall;
  propagating : bool;
  unhandledRejection : bool
}.

(** [try { body } catch { }]. *)
Definition tryCatch (body : Ran) : Ran :=
  {| calls := calls body; propagating := false;
     unhandledRejection := unhandledRejection body |}.

(** The effect body; [el] tells whether [stackRef.current] is set. After
    [typesetPromise] the code calls [.catch(() => { })] on what was returned:
    that handles a rejection, and throws when the value has no [catch]. What
    [typeset] returns is dropped, so a promise that rejects has no handler. *)
Definition typesetEffect (el : bool) (mj : option MathJax) : Ran :=
  match el, mj with
  | true, Some mj =>
      tryCatch
        match typesetPromise mj with
        | Some (Returned (Promise _)) =>
            {| calls := [CalledTypesetPromise]; propagating := false;
               unhandledRejection := false |}
        | Some (Returned NoPromise) =>
            {| calls := [CalledTypesetPromise]; propagating := true;
               unhandledRejection := false |}
        | Some Threw =>
            {| calls := [CalledTypesetPromise]; propagating := true;
               unhandledRejection := false |}
        | None =>
            match typeset mj with
            | Some (Returned (Promise Rejected)) =>
                {| calls := [CalledTypeset]; propagating := false;
                   unhandledRejection := true |}
            | Some (Returned _) =>
                {| calls := [CalledTypeset]; propagating := false;
                   unhandledRejection := false |}
            | Some Threw =>
                {| calls := [CalledTypeset]; propagating := true;
                   unhandledRejection := false |}
            | None =>
                {| calls := []; propagating := false; unhandledRejection := false |}
            end
        end
  | _, _ => {| calls := []; propagating := false; unhandledRejection := false |}
  end.

End SectionRenderer.

(* ===================================================================== *)
(** ** SectionInput.tsx *)
(* ===================================================================== *)

Module SectionInput.

(** The text of the textarea as UTF-16 code units, which is what [trim]
    inspects. *)
Definition JsString := list N.

(** White space and line terminators of ECMAScript, the characters [trim]
    strips: TAB, LF, VT, FF, CR, SP, NBSP, U+1680, U+2000..U+200A, U+2028,
    U+2029, U+202F, U+205F, U+3000 and U+FEFF. *)
Definition isWhiteSpace (c : N) : bool :=
  ((9 <=? c) && (c <=? 13) || (c =? 32) || (c =? 160) || (c =? 5760)
   || (8192 <=? c) && (c <=? 8202) || (c =? 8232) || (c =? 8233)
   || (c =? 8239) || (c =? 8287) || (c =? 12288) || (c =? 65279))%N.

Fixpoint trimStart (s : JsString) : JsString :=
  match s with
  | c :: s' => if isWhiteSpace c then trimStart s' else s
  | [] => []
  end.

Definition trimEnd (s : JsString) : JsString := rev (trimStart (rev s)).

Definition trim (s : JsString) : JsString := trimEnd (trimStart s).

(** Truthiness of a string. *)
Definition truthy (s : JsString) : bool :=
  match s with [] => false | _ => true end.

Record KeyboardEvent := {
  key : string;
  shiftKey : bool
}.

Inductive Action :=
| PreventDefault
| OnCommit (id : string) (value : JsString).

(** [handleKeyDown] of the input whose props are [id] and [onCommit] and
    whose state is [value]: the calls it makes, in order. *)
Definition handleKeyDown (id : string) (value : JsString) (e : KeyboardEvent)
  : list Action :=
  if String.eqb (key e) "Enter" && negb (shiftKey e) then
    PreventDefault ::
      (if truthy (trim value) then [OnCommit id value] else [])
  else [].

(** The component over time: [onChange] stores the text of the textarea in
    [value]; a key press runs [handleKeyDown] with the current [value]. The
    state starts as the empty string. *)
Inductive InputEvent :=
| Change (text : JsString)
| KeyDown (e : KeyboardEvent).

Definition inputStep (id : string) (st : JsString * list Action) (ev : InputEvent)
  : JsString * list Action :=
  match ev with
  | Change text => (text, snd st)
  | KeyDown e => (fst st, snd st ++ handleKeyDown id (fst st) e)
  end.

Definition inputRun (id : string) (events : list InputEvent) : JsString * list Action :=
  fold_left (inputStep id) events ([], []).

End SectionInput.

(* ===================================================================== *)
(** ** The node tree of the data model *)
(* ===================================================================== *)

Module Tree.

(** [eachChild] is the loop of [mapIntoArray] over the entries of an array,
    starting at index [i]. *)
Section eachChild.
Context {B : Type}.
Variable onNull : list nat -> B.
Variable callback : list nat -> ReactNode -> B.

Fixpoint eachChild (nameSoFar : list nat) (i : nat) (l : list ReactNode)
  : list B :=
  match l with
  | [] => []
  | child :: l' =>
      mapIntoArray onNull callback (nameSoFar ++ [i]) child
        ++ eachChild nameSoFar (S i) l'
  end.
End eachChild.

(** The children React's traversal calls back on, in order: arrays are
    flattened, [undefined] and booleans count as [null]. *)
Fixpoint childList (children : ReactNode) : list ReactNode :=
  match children with
  | RUndefined | RNull | RBool _ => [RNull]
  | RArray items => flat_map childList items
  | _ => [children]
  end.

(** The callback [fn] at a child of [childList], [onNull] being its value at
    [null]. *)
Definition atChild {B : Type} (onNull : B) (fn : ReactNode -> B) (child : ReactNode) : B :=
  match child with RNull => onNull | _ => fn child end.

(** Every element reachable from a node through [props.children], at any
    depth, in pre-order (a parent before its children, children in order;
    arrays are walked through). *)
Fixpoint elements (n : ReactNode) : list ReactNode :=
  match n with
  | RArray items => flat_map elements items
  | RElement _ _ _ _ children => n :: elements children
  | _ => []
  end.


(** A node as the data model has it: its type (which fixes the kind), its
    id, its other props and the ordered sequence of its children; text and
    numbers are leaves. Keys of children and the grouping of children into
    arrays are not part of it, and [null], [undefined] and booleans stand
    for no child at all. *)
Unset Elimination Schemes.
Inductive Node :=
| Text (s : string)
| Number (n : Z)
| Elem (type : ElementType) (id : option string)
       (props : gmap string PropValue) (children : list Node).
Set Elimination Schemes.

Fixpoint nodes (n : ReactNode) : list Node :=
  match n with
  | RUndefined | RNull | RBool _ => []
  | RString s => [Text s]
  | RNumber z => [Number z]
  | RArray items => flat_map nodes items
  | RElement type _ id props children => [Elem type id props (nodes children)]
  end.


(** [isComposite] of the data model: host elements and fragments are
    opaque, everything else is composite. *)
Definition isComposite (type : ElementType) : bool :=
  match type with
  | Host _ | Fragment => false
  | Component _ => true
  end.

(** What the data model sees of an element when the children are left out. *)
Definition describe (n : ReactNode) : option ElementType * option string * gmap string PropValue :=
  (type_of n, props_id n, props_rest n).

(** Injection on one described element, as the specification words it: a
    composite node receives the capabilities merged into its props, an opaque
    node receives nothing. *)
Definition injectInto (capabilities : gmap string PropValue)
    (d : option ElementType * option string * gmap string PropValue)
  : option ElementType * option string * gmap string PropValue :=
  let '(type, id, props) := d in
  match type with
  | Some t => if isComposite t then (type, id, capabilities ∪ props) else d
  | None => d
  end.

(** The non-empty ids of a list of elements, in order. *)
Definition idsOf (l : list ReactNode) : list string :=
  List.filter (fun i => negb (String.eqb i "")) (omap props_id l).

(** [ExtractId] as the specification words it: the first non-empty id met
    in pre-order, the node itself first. *)
Definition ExtractId (n : ReactNode) : option string :=
  if isValidElement n then head (idsOf (elements n)) else None.

(** The section id reported on reorder, as the specification words it: the
    key without the seven characters of its prefix [layout-], else
    [ExtractId], else ["unknown"]. *)
Definition reorderId (s : ReactNode) : string :=
  match key_of s with
  | Some key =>
      if startsWith key "layout-" then String_drop 7 key
      else or_else (ExtractId s) "unknown"
  | None => or_else (ExtractId s) "unknown"
  end.

(** Induction over a node and the nodes below it. *)
Section Node_induction.
Variable P : Node -> Prop.
Hypothesis Htext : forall s, P (Text s).
Hypothesis Hnumber : forall n, P (Number n).
Hypothesis Helem : forall type id props children,
  Forall P children -> P (Elem type id props children).

Fixpoint Node_induction (n : Node) : P n :=
match n with
| Text s => Htext s
| Number z => Hnumber z
| Elem type id props children =>
    Helem type id props children
      ((fix all (l : list Node) : Forall P l :=
          match l with
          | [] => List.Forall_nil P
          | x :: l' => @List.Forall_cons _ P x l' (Node_induction x) (all l')
          end) children)
end.
End Node_induction.

(** Replacement on the node tree: every node with the id that has no
    ancestor with the id gets [content] as its children; nothing below a
    replaced node is visited. *)
Fixpoint replaceNode (targetId : string) (content : list Node) (n : Node) : Node :=
  match n with
  | Elem type id props children =>
      if id_is id targetId then Elem type id props content
      else Elem type id props (map (replaceNode targetId content) children)
  | _ => n
  end.

(** Injection on the node tree: composite nodes get the capabilities merged
    over their props, at every depth; text is kept. *)
Fixpoint injectNode (capabilities : gmap string PropValue) (n : Node) : Node :=
  match n with
  | Elem type id props children =>
      Elem type id
        (if isComposite type then capabilities ∪ props else props)
        (map (injectNode capabilities) children)
  | _ => n
  end.

(** A [children] value that is text and falsy: the empty string or zero. *)
Definition falsyText (children : ReactNode) : bool :=
  match children with
  | RString s => String.eqb s ""
  | RNumber z => Z.eqb z 0
  | _ => false
  end.

(** All ids of the elements of a list of top-level nodes, with repeats. *)
Definition allIds (sections : list ReactNode) : list string :=
  omap props_id (flat_map elements sections).

End Tree.
Import Tree.

(* ===================================================================== *)
(** ** Sample trees *)
(* ===================================================================== *)

Module Samples.
Import LessonView SectionRenderer.

Definition SplitLayout : ElementType := Component "SplitLayout".

(** [<Section id=..>text</Section>]. *)
Definition section (id text : string) : ReactNode :=
  RElement Section_ None (Some id) ∅ (RString text).

(** [<FullWidthLayout key=.. maxWidth="xl"><Section id=..>..</Section></FullWidthLayout>]. *)
Definition wrapped (key : option string) (id text : string) : ReactNode :=
  RElement FullWidthLayout key None {[ "maxWidth" := PString "xl" ]}
    (section id text).

(** Scenario A: two wrapped sections. *)
Definition twoSections : State :=
  {| initialSections := [wrapped (Some "s1") "s1" "one"; wrapped (Some "s2") "s2" "two"];
     loadingSections := false |}.

(** A split layout holding two sections side by side. *)
Definition split : ReactNode :=
  RElement SplitLayout (Some "split") None {[ "ratio" := PString "1:1" ]}
    (RArray [section "left" "l"; section "right" "r"]).

Definition splitOnly : State :=
  {| initialSections := [split]; loadingSections := false |}.


(** The id ["x"] three levels below the top-level element. *)
Definition deep : ReactNode :=
  RElement FullWidthLayout (Some "E") None ∅
    (RElement (Host "div") None None ∅
       (RArray [RString "intro";
                RElement Fragment None None ∅
                  (RArray [RNull; RElement Section_ None (Some "x") ∅ (RString "body")])])).

(** A wrapper whose only id sits two levels down. *)
Definition twoLevels : ReactNode :=
  RElement FullWidthLayout None None ∅
    (RElement (Host "div") None None ∅ (section "inner" "t")).

(** A wrapper without any id. *)
Definition anonymous : ReactNode :=
  RElement FullWidthLayout None None ∅ (RElement (Host "p") None None ∅ (RString "t")).

(** A list for reorder that is not a permutation of [twoSections]. *)
Definition reordered : list ReactNode :=
  [RElement FullWidthLayout (Some "layout-section-42") None ∅ (RString "t");
   anonymous; deep; wrapped (Some "s1") "s1" "one"].

(** A key React could give a mapped child; used where a concrete one is
    needed. *)
Definition plainKey (name : list nat) (child mapped : ReactNode) : string :=
  or_else (key_of child) ".0".

Definition capabilities : InjectedProps :=
  {| isPreview := PBool false;
     onEditSection := PFunction "onEditSection";
     onAddSection := PFunction "handleAddSection" |}.

End Samples.

(* ===================================================================== *)
(** ** Facts about React's traversal *)
(* ===================================================================== *)

Section mapIntoArray_facts.
Context {B : Type}.

Lemma mapIntoArray_array (onNull : list nat -> B) callback name items :
  mapIntoArray onNull callback name (RArray items)
  = eachChild onNull callback name 0 items.
Proof.
  simpl. generalize 0%nat. induction items as [|x l IH]; intros i; simpl.
  - reflexivity.
  - f_equal. apply IH.
Qed.

(** A traversal whose callbacks ignore the position is a [map] over the
    children. *)
Lemma mapIntoArray_map (onNull : B) (fn : ReactNode -> B) children :
  forall name,
    mapIntoArray (fun _ => onNull) (fun _ child => fn child) name children
    = map (atChild onNull fn) (childList children).
Proof.
  induction children as [| |b|s|n|items IH|type key id props children _] using ReactNode_induction;
    intros name; try reflexivity.
  rewrite mapIntoArray_array. simpl. generalize 0%nat.
  induction IH as [|x l Hx _ IHl]; intros i; simpl; [reflexivity|].
  rewrite map_app, Hx, IHl. reflexivity.
Qed.

(** A traversal whose results are read through [g], when [g] does not see
    the position either. *)
Lemma mapIntoArray_flat_map {X : Type} (g : B -> list X)
    (onNull : list nat -> B) (callback : list nat -> ReactNode -> B)
    (h : ReactNode -> list X) :
  (forall name, g (onNull name) = h RNull) ->
  (forall name child, child <> RNull -> g (callback name child) = h child) ->
  forall children name,
    flat_map g (mapIntoArray onNull callback name children)
    = flat_map h (childList children).
Proof.
  intros Hnull Hcb.
  induction children as [| |b|s|n|items IH|type key id props children _] using ReactNode_induction;
    intros name; simpl; rewrite ?Hnull, ?Hcb by discriminate; try reflexivity.
  generalize 0%nat.
  induction IH as [|x l Hx _ IHl]; intros i; simpl; [reflexivity|].
  rewrite !flat_map_app, Hx, IHl. reflexivity.
Qed.
End mapIntoArray_facts.

(** Induction over the children the traversal calls back on. *)
Lemma childList_ind (Q : ReactNode -> Prop) :
  Q RNull ->
  (forall s, Q (RString s)) ->
  (forall n, Q (RNumber n)) ->
  (forall type key id props children,
      Forall Q (childList children) -> Q (RElement type key id props children)) ->
  forall children, Forall Q (childList children).
Proof.
  intros Hnull Hstr Hnum Helem.
  induction children as [| |b|s|n|items IH|type key id props children IH] using ReactNode_induction; simpl;
    try (constructor; [auto|constructor]).
  induction IH as [|x l Hx _ IHl]; simpl; [constructor|].
  apply Forall_app; split; assumption.
Qed.

Lemma elements_childList children :
  elements children = flat_map elements (childList children).
Proof.
  induction children as [| |b|s|n|items IH|type key id props children _] using ReactNode_induction; simpl;
    rewrite ?app_nil_r; try reflexivity.
  induction IH as [|x l Hx _ IHl]; simpl; [reflexivity|].
  rewrite flat_map_app, <- Hx, <- IHl. reflexivity.
Qed.

Lemma nodes_childList children :
  nodes children = flat_map nodes (childList children).
Proof.
  induction children as [| |b|s|n|items IH|type key id props children _] using ReactNode_induction; simpl;
    try reflexivity.
  induction IH as [|x l Hx _ IHl]; simpl; [reflexivity|].
  rewrite flat_map_app, <- Hx, <- IHl. reflexivity.
Qed.

Lemma childList_nullish children :
  isNullish children = true -> childList children = [RNull].
Proof. destruct children; simpl; intros; congruence. Qed.

Lemma childList_not_array children :
  Forall (fun child => forall items, child <> RArray items) (childList children).
Proof.
  apply childList_ind; intros; discriminate.
Qed.

(* ===================================================================== *)
(** ** The traversals, as the source writes them *)
(* ===================================================================== *)

(** The definitions above give the callback's value at [null] apart, for
    the recursion to be structural. The equations below state each function
    with React's [Children.forEach] and [Children.map] applied to the callback
    of the source. *)

Lemma Children_forEach_with_ext {S : Type} (onNull onNull' : S -> S)
    (fn : ReactNode -> S -> S) (children : ReactNode) (s : S) :
  (forall s, onNull s = onNull' s) ->
  Children_forEach_with onNull fn children s
  = Children_forEach_with onNull' fn children s.
Proof.
  intros Hext. unfold Children_forEach_with.
  destruct (isNullish children); [reflexivity|].
  rewrite !mapIntoArray_map. revert s.
  induction (childList children) as [|x l IH]; intros s; simpl; [reflexivity|].
  rewrite IH. f_equal. destruct x; simpl; auto.
Qed.


Lemma getSectionIdFromElement_eq (element : ReactNode) :
  LessonView.getSectionIdFromElement element
  = match element with
    | RElement type _ id _ children =>
        if truthyString id && bool_decide (type = LessonView.Section_) then id
        else if truthyString id then id
        else if truthy children then
          Children_forEach
            (fun child foundId =>
               if negb (truthyString foundId) && isValidElement child
               then LessonView.getSectionIdFromElement child
               else foundId)
            children None
        else None
    | _ => None
    end.
Proof.
  destruct element as [| |b|s|n|items|type key id props children]; try reflexivity.
  cbn [LessonView.getSectionIdFromElement].
  destruct (truthyString id && _); [reflexivity|].
  destruct (truthyString id); [reflexivity|].
  destruct (truthy children); [|reflexivity].
  apply Children_forEach_with_ext. intros s. rewrite andb_false_r. reflexivity.
Qed.

Lemma replaceSectionContent_eq childKey (element : ReactNode) (targetId : string)
    (newContent : ReactNode) :
  LessonView.replaceSectionContent childKey element targetId newContent
  = match element with
    | RElement _ _ id _ children =>
        if id_is id targetId then cloneElement element ∅ newContent
        else if truthy children then
          cloneElement element ∅
            (Children_map childKey
               (fun child =>
                  LessonView.replaceSectionContent childKey child targetId newContent)
               children)
        else element
    | _ => element
    end.
Proof. destruct element; reflexivity. Qed.

Lemma deepCloneWithProps_eq childKey (element : ReactNode)
    (props : SectionRenderer.InjectedProps) :
  SectionRenderer.deepCloneWithProps childKey element props
  = match element with
    | RElement type _ _ _ children =>
        let isHostComponent := match type with Host _ => true | _ => false end in
        let isFragment := bool_decide (type = Fragment) in
        let shouldInjectProps := negb isHostComponent && negb isFragment in
        cloneElement element
          (if shouldInjectProps then SectionRenderer.spread props else ∅)
          (if truthy children
           then Children_map childKey
                  (fun child => SectionRenderer.deepCloneWithProps childKey child props)
                  children
           else RUndefined)
    | _ => element
    end.
Proof. destruct element; reflexivity. Qed.

(* ===================================================================== *)
(** ** [hasSectionId] is the contains-id test *)
(* ===================================================================== *)

Import LessonView.

Lemma forEach_found_fold (p : ReactNode -> bool) (l : list ReactNode) (found : bool) :
  p RNull = false ->
  fold_left (fun s k => k s)
    (map (atChild (fun found : bool => found)
            (fun child found => if negb found && p child then true else found)) l)
    found
  = found || existsb p l.
Proof.
  intros Hnull. revert found. induction l as [|x l IH]; intros found; simpl.
  - rewrite orb_false_r. reflexivity.
  - rewrite IH. unfold atChild.
    destruct x;
      try (destruct found; simpl;
           [reflexivity
           | match goal with |- context [p ?y] => destruct (p y) end; reflexivity]).
    rewrite Hnull. reflexivity.
Qed.

Lemma existsb_flat_map {A B : Type} (p : B -> bool) (q : A -> bool) (f : A -> list B) l :
  Forall (fun x => q x = existsb p (f x)) l ->
  existsb q l = existsb p (flat_map f l).
Proof.
  induction 1 as [|x l Hx _ IH]; simpl; [reflexivity|].
  rewrite existsb_app, Hx, IH. reflexivity.
Qed.

(** On an element, [hasSectionId] holds exactly when some element of its
    tree has the id. *)
Lemma hasSectionId_childList targetId children :
  Forall (fun child =>
            hasSectionId child targetId
            = existsb (fun e => id_is (props_id e) targetId) (elements child))
         (childList children).
Proof.
  apply childList_ind; try reflexivity.
  intros type key id props c IH.
  cbn [hasSectionId elements existsb props_id].
  destruct (id_is id targetId); [reflexivity|]. simpl.
  unfold Children_forEach_with.
  destruct (isNullish c) eqn:Hn.
  - destruct c; try discriminate; reflexivity.
  - rewrite mapIntoArray_map, forEach_found_fold by reflexivity. simpl.
    rewrite (elements_childList c). apply existsb_flat_map, IH.
Qed.

Lemma hasSectionId_elements type key id props children targetId :
  hasSectionId (RElement type key id props children) targetId
  = existsb (fun e => id_is (props_id e) targetId)
      (elements (RElement type key id props children)).
Proof.
  pose proof (hasSectionId_childList targetId (RElement type key id props children)) as H.
  simpl in H. apply Forall_inv in H. exact H.
Qed.

Lemma id_is_true i targetId : id_is i targetId = true <-> i = Some targetId.
Proof.
  destruct i as [s|]; simpl.
  - rewrite String.eqb_eq. split; congruence.
  - split; discriminate.
Qed.

Lemma hasSectionId_true section targetId :
  hasSectionId section targetId = true
  <-> isValidElement section = true
      /\ exists e, e ∈ elements section /\ props_id e = Some targetId.
Proof.
  destruct section as [| |b|s|n|items|type key id props children];
    try (simpl; split; [discriminate | intros [? _]; discriminate]).
  rewrite hasSectionId_elements, existsb_exists.
  split.
  - intros (e & Hin & He). split; [reflexivity|]. exists e.
    rewrite list_elem_of_In, <- id_is_true. auto.
  - intros (_ & e & Hin & He). exists e.
    rewrite <- list_elem_of_In, id_is_true. auto.
Qed.

(* ===================================================================== *)
(** ** The store: delete and add *)
(* ===================================================================== *)

Lemma findIndex_Some {A : Type} (p : A -> bool) (l : list A) (i : nat) :
  findIndex p l = Some i ->
  exists x, l !! i = Some x /\ p x = true
            /\ forall j y, (j < i)%nat -> l !! j = Some y -> p y = false.
Proof.
  revert i. induction l as [|a l IH]; intros i; simpl; [discriminate|].
  destruct (p a) eqn:Ha.
  - intros [= <-]. exists a. split; [reflexivity|]. split; [assumption|]. lia.
  - destruct (findIndex p l) as [k|]; simpl; [|discriminate].
    intros [= <-]. destruct (IH k eq_refl) as (x & Hx & Hp & Hlt).
    exists x. split; [exact Hx|]. split; [exact Hp|].
    intros [|j] y Hj Hy; simpl in Hy.
    + congruence.
    + apply (Hlt j); [lia | exact Hy].
Qed.


(** C3. Delete removes exactly the top-level nodes that contain the id at
    any depth (the whole top-level element, in place, the others kept in
    order), and posts one delete message carrying that id. *)
Theorem handleDeleteSection_removes_owners (sectionId : string) (st : State) :
  let after := sectionsAfter (handleDeleteSection sectionId) st in
  after = List.filter (fun section => negb (hasSectionId section sectionId))
            (initialSections st)
  /\ (forall section,
         section ∈ after <->
         section ∈ initialSections st
         /\ ~ (isValidElement section = true
               /\ exists e, e ∈ elements section /\ props_id e = Some sectionId))
  /\ effectsOf (handleDeleteSection sectionId) st
     = [PostMessage (CommitSectionDelete sectionId)].
Proof.
  cbv zeta. split; [reflexivity|]. split; [|reflexivity].
  intros section. unfold sectionsAfter, handleDeleteSection; simpl.
  rewrite list_elem_of_In, filter_In, <- list_elem_of_In, <- hasSectionId_true.
  rewrite negb_true_iff, not_true_iff_false. reflexivity.
Qed.

(** The id minted at a given clock value. *)
Example Number_toString_timestamp :
  String.append "section-" (Number_toString 1769973450384) = "section-1769973450384".
Proof. reflexivity. Qed.


(** C7, as the code has it: the placeholder is always wrapped in a
    [FullWidthLayout] with [maxWidth="xl"] and key [layout-<newId>], holding a
    [Section] with the new id, whatever the sibling it is put after is
    wrapped in. *)
Theorem handleAddSection_wraps_in_FullWidthLayout
    (now : Z) (targetId : string) (st : State) (i : nat) (sibling : ReactNode) :
  findIndex (fun section => hasSectionId section targetId) (initialSections st) = Some i ->
  initialSections st !! i = Some sibling ->
  let newId := String.append "section-" (Number_toString now) in
  exists inserted,
    sectionsAfter (handleAddSection now targetId) st !! S i = Some inserted
    /\ inserted = newSection newId
    /\ type_of inserted = Some FullWidthLayout
    /\ key_of inserted = Some (String.append "layout-" newId)
    /\ props_rest inserted !! "maxWidth" = Some (PString "xl")
    /\ type_of (props_children inserted) = Some Section_
    /\ props_id (props_children inserted) = Some newId.
Proof.
  intros Hfind Hsib newId. exists (newSection newId).
  split; [|repeat split].
  unfold sectionsAfter, handleAddSection, bind, getInitialSections.
  rewrite Hfind. simpl. rewrite Nat.add_1_r.
  assert (Hlen : (i < length (initialSections st))%nat)
    by (eapply lookup_lt_Some; exact Hsib).
  rewrite lookup_app_r by (rewrite length_take; lia).
  rewrite length_take. replace (S i - S i `min` length (initialSections st))%nat with 0%nat by lia.
  reflexivity.
Qed.

Lemma handleAddSection_wraps_in_FullWidthLayout_witness :
  exists inserted,
    sectionsAfter (handleAddSection 42 "left") Samples.splitOnly !! 1%nat = Some inserted
    /\ inserted = newSection "section-42"
    /\ type_of inserted = Some FullWidthLayout
    /\ key_of inserted = Some "layout-section-42"
    /\ props_rest inserted !! "maxWidth" = Some (PString "xl")
    /\ type_of (props_children inserted) = Some Section_
    /\ props_id (props_children inserted) = Some "section-42".
Proof.
  apply (handleAddSection_wraps_in_FullWidthLayout 42 "left" Samples.splitOnly 0 Samples.split);
    reflexivity.
Defined.

(** C7 fails as stated: after a sibling wrapped in a [SplitLayout] the
    placeholder is wrapped in a [FullWidthLayout]. *)
Lemma handleAddSection_wrapper_differs_from_sibling :
  (initialSections Samples.splitOnly !! 0%nat) ≫= type_of = Some Samples.SplitLayout
  /\ (sectionsAfter (handleAddSection 42 "left") Samples.splitOnly !! 1%nat) ≫= type_of
     = Some FullWidthLayout
  /\ (sectionsAfter (handleAddSection 42 "left") Samples.splitOnly !! 1%nat) ≫= type_of
     <> (initialSections Samples.splitOnly !! 0%nat) ≫= type_of.
Proof.
  split; [reflexivity|]. split; [reflexivity|]. discriminate.
Qed.

(** Scenario A. *)
Example handleAddSection_scenario_A :
  map getSectionIdFromElement
    (sectionsAfter (handleAddSection 1769973450384 "s1") Samples.twoSections)
  = [Some "s1"; Some "section-1769973450384"; Some "s2"].
Proof. reflexivity. Qed.

(** P6: the id sits three levels down, the whole top-level element goes. *)
Example handleDeleteSection_nested :
  sectionsAfter (handleDeleteSection "x")
    {| initialSections := [Samples.wrapped None "a" "t"; Samples.deep; Samples.split];
       loadingSections := false |}
  = [Samples.wrapped None "a" "t"; Samples.split].
Proof. reflexivity. Qed.

(* ===================================================================== *)
(** ** [getSectionIdFromElement] is [ExtractId]; reorder *)
(* ===================================================================== *)

Lemma idsOf_app l1 l2 : idsOf (l1 ++ l2) = idsOf l1 ++ idsOf l2.
Proof. unfold idsOf. rewrite omap_app, List.filter_app. reflexivity. Qed.

Lemma head_idsOf_truthy l :
  truthyString (head (idsOf l)) = false -> idsOf l = [].
Proof.
  unfold idsOf. induction (omap props_id l) as [|i ids IH]; simpl; [reflexivity|].
  destruct (String.eqb i "") eqn:E; simpl; [exact IH|].
  rewrite E. discriminate.
Qed.

Lemma forEach_foundId_fold (g : ReactNode -> option string) (l : list ReactNode) :
  Forall (fun child => g child = head (idsOf (elements child))) l ->
  Forall (fun child => forall items, child <> RArray items) l ->
  forall foundId,
    (truthyString foundId = false -> foundId = None) ->
    fold_left (fun s k => k s)
      (map (atChild (fun foundId : option string => foundId)
              (fun child foundId =>
                 if negb (truthyString foundId) && isValidElement child
                 then g child else foundId)) l)
      foundId
    = if truthyString foundId then foundId
      else head (idsOf (flat_map elements l)).
Proof.
  induction 1 as [|x l Hx _ IH]; intros Hshape foundId Hacc; simpl.
  - destruct (truthyString foundId) eqn:E; [reflexivity|]. apply Hacc; reflexivity.
  - apply Forall_cons in Hshape as [Hx' Hl].
    rewrite idsOf_app.
    destruct (truthyString foundId) eqn:E.
    + assert (Hsame : atChild (fun f : option string => f)
                        (fun child f => if negb (truthyString f) && isValidElement child
                                        then g child else f) x foundId = foundId).
      { unfold atChild. destruct x; rewrite ?E; reflexivity. }
      rewrite Hsame, IH; [|exact Hl|intros; congruence].
      rewrite E. reflexivity.
    + destruct x as [| |b|s|n|items|type key id props children];
        try (cbn [atChild isValidElement]; rewrite ?E; cbn [negb andb];
             rewrite IH by auto; rewrite E; reflexivity).
      * exfalso. exact (Hx' items eq_refl).
      * cbn [atChild isValidElement]. rewrite E. cbn [negb andb].
        rewrite IH; [|exact Hl|].
        -- rewrite Hx.
           destruct (truthyString (head (idsOf (elements (RElement type key id props children))))) eqn:E2.
           ++ destruct (idsOf (elements (RElement type key id props children))); [discriminate|reflexivity].
           ++ rewrite (head_idsOf_truthy _ E2). reflexivity.
        -- rewrite Hx. intros E2. rewrite (head_idsOf_truthy _ E2). reflexivity.
Qed.

Lemma getSectionIdFromElement_childList children :
  Forall (fun child => getSectionIdFromElement child = head (idsOf (elements child)))
    (childList children).
Proof.
  apply childList_ind; try reflexivity.
  intros type key id props c IH.
  cbn [getSectionIdFromElement elements].
  change (RElement type key id props c :: elements c)
    with ([RElement type key id props c] ++ elements c).
  rewrite idsOf_app.
  destruct (truthyString id) eqn:Hid.
  - assert (H1 : idsOf [RElement type key id props c] = match id with Some i => [i] | None => [] end).
    { unfold idsOf. destruct id as [i|]; simpl in *; [|discriminate]. rewrite Hid. reflexivity. }
    rewrite H1. destruct id; [|discriminate]. simpl.
    destruct (bool_decide _); reflexivity.
  - assert (H1 : idsOf [RElement type key id props c] = []).
    { unfold idsOf. destruct id as [i|]; simpl in *; [|reflexivity].
      apply negb_false_iff in Hid. rewrite Hid. reflexivity. }
    rewrite H1. simpl.
    destruct (truthy c) eqn:Ht.
    + unfold Children_forEach_with.
      assert (Hn : isNullish c = false) by (destruct c; simpl in *; congruence).
      rewrite Hn, mapIntoArray_map.
      rewrite (forEach_foundId_fold _ _ IH (childList_not_array c) None (fun _ => eq_refl)).
      rewrite <- elements_childList. reflexivity.
    + destruct c; simpl in *; try discriminate; reflexivity.
Qed.

Lemma getSectionIdFromElement_ExtractId (n : ReactNode) :
  getSectionIdFromElement n = ExtractId n.
Proof.
  unfold ExtractId.
  destruct n as [| |b|s|z|items|type key id props children]; try reflexivity.
  pose proof (getSectionIdFromElement_childList (RElement type key id props children)) as H.
  simpl in H. apply Forall_inv in H. exact H.
Qed.

Lemma String_replace_prefix (s pattern : string) :
  String.prefix pattern s = true ->
  String_replace s pattern "" = String_drop (String.length pattern) s.
Proof. intros H. destruct s; cbn [String_replace]; rewrite H; reflexivity. Qed.

Lemma reorderSectionId_reorderId (s : ReactNode) : reorderSectionId s = reorderId s.
Proof.
  unfold reorderSectionId, reorderId.
  rewrite getSectionIdFromElement_ExtractId.
  destruct (key_of s) as [key|]; [|reflexivity].
  unfold startsWith. destruct (String.prefix "layout-" key) eqn:Hp.
  - rewrite (String_replace_prefix _ _ Hp).
    destruct key; [discriminate|]. reflexivity.
  - rewrite andb_false_r. reflexivity.
Qed.

(** C5. Reorder stores the list it is given as it is, whatever it holds,
    and posts the ids computed element by element: the key without its
    [layout-] prefix when it has one, else the first non-empty id of the
    element's tree, else ["unknown"]. An element without id and with key
    [layout-section-42] is reported as [section-42]. *)
Theorem handleReorder_stores_and_reports (newOrder : list ReactNode) (st : State) :
  Forall (fun s => isValidElement s = true) newOrder ->
  sectionsAfter (handleReorder newOrder) st = newOrder
  /\ effectsOf (handleReorder newOrder) st
     = [PostMessage (CommitSectionReorder (map reorderId newOrder))]
  /\ (forall type props children,
         reorderId (RElement type (Some "layout-section-42") None props children)
         = "section-42").
Proof.
  intros _. split; [reflexivity|]. split; [|reflexivity].
  unfold effectsOf, handleReorder, bind, setInitialSections, emit. simpl.
  do 3 f_equal. apply map_ext. intros s. apply reorderSectionId_reorderId.
Qed.

Lemma handleReorder_stores_and_reports_witness :
  sectionsAfter (handleReorder Samples.reordered) Samples.twoSections = Samples.reordered
  /\ effectsOf (handleReorder Samples.reordered) Samples.twoSections
     = [PostMessage (CommitSectionReorder (map reorderId Samples.reordered))]
  /\ (forall type props children,
         reorderId (RElement type (Some "layout-section-42") None props children)
         = "section-42").
Proof.
  apply (handleReorder_stores_and_reports Samples.reordered Samples.twoSections).
  unfold Samples.reordered. repeat constructor.
Defined.

(** What the message holds for a list that is no permutation of the stored
    one: a key with the prefix, an element without any id, a nested id. *)
Example handleReorder_reported_ids :
  effectsOf (handleReorder Samples.reordered) Samples.twoSections
  = [PostMessage (CommitSectionReorder ["section-42"; "unknown"; "x"; "s1"])].
Proof. reflexivity. Qed.

(** Scenario C. *)
Example reorder_then_delete :
  let A := Samples.wrapped (Some "s1") "s1" "one" in
  let B := Samples.wrapped (Some "s2") "s2" "two" in
  sectionsAfter (handleReorder [B; A] ;; handleDeleteSection "s2")%store Samples.twoSections
  = [A].
Proof. reflexivity. Qed.

(* ===================================================================== *)
(** ** The context injector *)
(* ===================================================================== *)

Import SectionRenderer.

(** C6, as the code has it: the id is the element's own id when that is
    non-empty, else the id of its one direct child element, else none; there
    is no search below that child and no positional fallback. A non-empty id
    that is resolved is the one [ExtractId] finds. The context value carries
    that id, and its [onDelete] calls the owner's delete callback, with that
    id, exactly when the id is non-empty and the callback was supplied;
    otherwise it does nothing. *)
Theorem DraggableSection_resolves_one_level
    (type : ElementType) (key ownId : option string)
    (props : gmap string PropValue) (children : ReactNode) :
  let section := RElement type key ownId props children in
  sectionId section
  = (if truthyString ownId then ownId
     else match children with
          | RElement _ _ childId _ _ => childId
          | _ => None
          end)
  /\ (truthyString (sectionId section) = true -> ExtractId section = sectionId section)
  /\ (forall (S : Type) childKey isPreview onEditSection onAddSection
             (onDeleteSection : option (string -> S -> S)) (s : S),
         let provided :=
           fst (DraggableSection childKey section isPreview onEditSection
                  onAddSection onDeleteSection) in
         id provided = sectionId section
         /\ onDelete provided s
            = match sectionId section, onDeleteSection with
              | Some i, Some callback => if String.eqb i "" then s else callback i s
              | _, _ => s
              end).
Proof.
  cbv zeta. split; [|split].
  - unfold sectionId. simpl. destruct (truthyString ownId); [reflexivity|].
    destruct children; simpl; rewrite ?andb_false_r; reflexivity.
  - rewrite <- getSectionIdFromElement_ExtractId.
    unfold sectionId. cbn [props_id props_children getSectionIdFromElement].
    destruct (truthyString ownId) eqn:Hid.
    + intros _. destruct (bool_decide _); reflexivity.
    + rewrite andb_false_l.
      destruct children as [| |b|s|n|items|ctype ckey cid cprops cchildren];
        try (simpl; rewrite ?andb_false_r; discriminate).
      cbn [truthy isValidElement andb props_id]. intros Hc.
      unfold Children_forEach_with. cbn [isNullish mapIntoArray fold_left].
      cbn [truthyString negb andb isValidElement getSectionIdFromElement].
      rewrite Hc. destruct (bool_decide _); reflexivity.
  - intros S childKey isPreview onEditSection onAddSection onDeleteSection s.
    split; [reflexivity|]. cbn [DraggableSection fst onDelete]. unfold handleDelete.
    destruct (sectionId _) as [i|]; [|reflexivity].
    destruct onDeleteSection as [callback|]; [|reflexivity].
    simpl. destruct (String.eqb i ""); reflexivity.
Qed.

(** C6 fails as stated: with the id two levels down, or below an array of
    children, [ExtractId] finds it and the injector resolves none; and with no
    id anywhere the injector resolves none rather than a positional id, which
    only the list key of the renderer falls back to. *)
Lemma DraggableSection_not_ExtractId :
  (ExtractId Samples.twoLevels = Some "inner" /\ sectionId Samples.twoLevels = None)
  /\ (ExtractId Samples.split = Some "left" /\ sectionId Samples.split = None)
  /\ (sectionId Samples.anonymous = None
      /\ draggableKey Samples.anonymous 3 = "section-3")
  /\ sectionId Samples.twoLevels <> ExtractId Samples.twoLevels.
Proof.
  repeat split; try reflexivity. discriminate.
Qed.

(* ===================================================================== *)
(** ** The loading effect after teardown *)
(* ===================================================================== *)

(** Once [cancelled] is set, neither the load resolving nor a watcher
    update changes anything, and teardown itself touches neither the stored
    state nor the count of watchers created. *)
Lemma loaderStep_cancelled (dev : bool) (l : Loader) (e : LoaderEvent) :
  cancelled l = true ->
  cancelled (loaderStep dev l e) = true
  /\ store (loaderStep dev l e) = store l
  /\ watchersCreated (loaderStep dev l e) = watchersCreated l
  /\ cleanup (loaderStep dev l e) = cleanup l.
Proof.
  intros Hc. destruct e; simpl; rewrite ?Hc; simpl; auto.
Qed.

Lemma loaderRun_cancelled (dev : bool) (events : list LoaderEvent) :
  forall l,
    cancelled l = true ->
    cancelled (loaderRun dev events l) = true
    /\ store (loaderRun dev events l) = store l
    /\ watchersCreated (loaderRun dev events l) = watchersCreated l
    /\ cleanup (loaderRun dev events l) = cleanup l.
Proof.
  induction events as [|e events IH]; intros l Hc; simpl; [auto|].
  destruct (loaderStep_cancelled dev l e Hc) as (H1 & H2 & H3 & H4).
  destruct (IH _ H1) as (G1 & G2 & G3 & G4).
  rewrite G2, G3, G4. auto.
Qed.

(** C9. With teardown while the load is in flight, the resolving load meets
    the raised flag first and does nothing at all; whatever arrives later, the
    stored list stays the initial empty one, the loading flag stays set, and
    no watcher is ever created. *)
Theorem load_after_teardown_is_discarded
    (dev : bool) (secs : option (list ReactNode)) (later : list LoaderEvent) :
  let tornDown := loaderStep dev mounted Teardown in
  cancelled tornDown = true
  /\ loaderStep dev tornDown (LoadResolved secs) = tornDown
  /\ store (loaderRun dev (LoadResolved secs :: later) tornDown) = store mounted
  /\ initialSections (store (loaderRun dev (LoadResolved secs :: later) tornDown)) = []
  /\ watchersCreated (loaderRun dev (LoadResolved secs :: later) tornDown) = 0%nat
  /\ cleanup (loaderRun dev (LoadResolved secs :: later) tornDown) = false.
Proof.
  cbv zeta.
  destruct (loaderRun_cancelled dev (LoadResolved secs :: later)
              (loaderStep dev mounted Teardown) eq_refl) as (_ & H2 & H3 & H4).
  split; [reflexivity|]. split; [reflexivity|].
  rewrite H2, H3, H4. repeat split; reflexivity.
Qed.

(** Without teardown the same load is stored and, in development mode, the
    watcher is created. *)
Example load_without_teardown (secs : list ReactNode) :
  let l := loaderStep true mounted (LoadResolved (Some secs)) in
  initialSections (store l) = secs /\ loadingSections (store l) = false
  /\ watchersCreated l = 1%nat.
Proof. repeat split; reflexivity. Qed.


(* ===================================================================== *)
(** ** [Children.map] seen through a view that ignores keys *)
(* ===================================================================== *)

Lemma flat_map_concat {A X : Type} (f : A -> list X) (L : list (list A)) :
  flat_map f (concat L) = flat_map (flat_map f) L.
Proof.
  induction L as [|l L IH]; simpl; [reflexivity|].
  rewrite flat_map_app, IH. reflexivity.
Qed.

Lemma flat_map_flat_map {A B X : Type} (f : B -> list X) (g : A -> list B) (l : list A) :
  flat_map f (flat_map g l) = flat_map (fun x => flat_map f (g x)) l.
Proof.
  induction l as [|x l IH]; simpl; [reflexivity|].
  rewrite flat_map_app, IH. reflexivity.
Qed.

Lemma flat_map_Forall_ext {A X : Type} (f g : A -> list X) (l : list A) :
  Forall (fun x => f x = g x) l -> flat_map f l = flat_map g l.
Proof.
  induction 1 as [|x l Hx _ IH]; simpl; [reflexivity|]. rewrite Hx, IH. reflexivity.
Qed.

Section key_blind_view.
Context {X : Type}.
Variable v : ReactNode -> list X.
Hypothesis v_key : forall e k, v (cloneAndReplaceKey e k) = v e.
Hypothesis v_children : forall c, v c = flat_map v (childList c).
Hypothesis v_null : v RNull = [].
Variable childKey : list nat -> ReactNode -> ReactNode -> string.

Lemma view_array items : v (RArray items) = flat_map v items.
Proof.
  rewrite v_children. simpl. rewrite flat_map_flat_map.
  apply flat_map_Forall_ext, Forall_forall. intros x _. symmetry. apply v_children.
Qed.

Lemma view_pushMapped name child mapped :
  flat_map v (pushMapped childKey name child mapped) = v mapped.
Proof.
  destruct mapped as [| |b|s|n|items|type key id props children];
    cbn [pushMapped flat_map]; rewrite ?app_nil_r; try reflexivity.
  - rewrite v_children. simpl. rewrite v_null. reflexivity.
  - rewrite v_null. reflexivity.
  - rewrite flat_map_concat.
    rewrite (mapIntoArray_flat_map (flat_map v) _ _ v).
    + symmetry. apply v_children.
    + intros _. simpl. symmetry. apply v_null.
    + intros sub c _. destruct (isValidElement c); simpl; rewrite app_nil_r;
        [apply v_key | reflexivity].
  - apply (v_key (RElement type key id props children)).
Qed.

Lemma view_Children_map_with onNull fn children :
  isNullish children = false ->
  v (Children_map_with childKey onNull fn children)
  = flat_map (fun child => v (atChild onNull fn child)) (childList children).
Proof.
  intros Hn. unfold Children_map_with. rewrite Hn, view_array, flat_map_concat.
  apply mapIntoArray_flat_map.
  - intros name. apply view_pushMapped.
  - intros name child Hc. rewrite view_pushMapped.
    destruct child; try reflexivity. congruence.
Qed.
End key_blind_view.

Lemma nodes_Children_map_with childKey onNull fn children :
  isNullish children = false ->
  nodes (Children_map_with childKey onNull fn children)
  = flat_map (fun child => nodes (atChild onNull fn child)) (childList children).
Proof.
  apply view_Children_map_with.
  - intros [] k; reflexivity.
  - apply nodes_childList.
  - reflexivity.
Qed.

Lemma described_Children_map_with childKey onNull fn children :
  isNullish children = false ->
  map describe (elements (Children_map_with childKey onNull fn children))
  = flat_map (fun child => map describe (elements (atChild onNull fn child)))
      (childList children).
Proof.
  apply (view_Children_map_with (fun n => map describe (elements n))).
  - intros [] k; reflexivity.
  - intros c. rewrite (elements_childList c) at 1.
    induction (childList c) as [|x l IH]; simpl; [reflexivity|].
    rewrite map_app, IH. reflexivity.
  - reflexivity.
Qed.

(* ===================================================================== *)
(** ** Prop injection respects the kind *)
(* ===================================================================== *)

Lemma truthy_false_elements children :
  truthy children = false -> elements children = [].
Proof. destruct children; simpl; try reflexivity; discriminate. Qed.

Lemma truthy_not_nullish children :
  truthy children = true -> isNullish children = false.
Proof. destruct children; simpl; congruence. Qed.

Lemma deepCloneWithProps_described childKey props children :
  Forall (fun child =>
            map describe (elements (deepCloneWithProps childKey child props))
            = map (injectInto (spread props)) (map describe (elements child)))
         (childList children).
Proof.
  apply childList_ind; try reflexivity.
  intros type key id rest c IH.
  cbn [deepCloneWithProps cloneElement elements map].
  f_equal.
  - unfold describe, injectInto. cbn [type_of props_id props_rest].
    destruct type; simpl; rewrite ?(left_id_L ∅ (∪)); reflexivity.
  - destruct (truthy c) eqn:Ht.
    + rewrite described_Children_map_with by (apply truthy_not_nullish; exact Ht).
      rewrite (elements_childList c).
      induction IH as [|x l Hx _ IHl]; simpl; [reflexivity|].
      rewrite !map_app, <- IHl. f_equal.
      destruct x; try reflexivity; exact Hx.
    + rewrite (truthy_false_elements c Ht). reflexivity.
Qed.

(** C1. In the clone of an element, every element of the tree, at any
    depth, keeps its type and id; a composite one has the whole bundle merged
    into its props, an opaque one (host element or fragment) has its props
    as they were, so no capability key is put on it; and the elements below an
    opaque one are cloned by the same rule. *)
Theorem deepCloneWithProps_injects_by_kind
    (childKey : list nat -> ReactNode -> ReactNode -> string)
    (type : ElementType) (key id : option string) (rest : gmap string PropValue)
    (children : ReactNode) (props : InjectedProps) :
  let element := RElement type key id rest children in
  let out := deepCloneWithProps childKey element props in
  map describe (elements out)
  = map (injectInto (spread props)) (map describe (elements element))
  /\ (forall n t,
         n ∈ elements out -> type_of n = Some t -> isComposite t = true ->
         props_rest n !! "isPreview" = Some (isPreview props)
         /\ props_rest n !! "onEditSection" = Some (onEditSection props)
         /\ props_rest n !! "onAddSection" = Some (onAddSection props))
  /\ (forall n t,
         n ∈ elements out -> type_of n = Some t -> isComposite t = false ->
         exists m, m ∈ elements element /\ describe n = describe m).
Proof.
  cbv zeta.
  pose proof (deepCloneWithProps_described childKey props
                (RElement type key id rest children)) as H.
  cbn [childList] in H. apply Forall_inv in H.
  split; [exact H|].
  assert (Hin : forall n, n ∈ elements (deepCloneWithProps childKey
                                       (RElement type key id rest children) props) ->
                exists m, m ∈ elements (RElement type key id rest children)
                          /\ describe n = injectInto (spread props) (describe m)).
  { intros n Hn. apply (list_elem_of_fmap_2 describe) in Hn.
    change (describe <$> ?l) with (map describe l) in Hn.
    rewrite H, map_map in Hn.
    apply list_elem_of_In, in_map_iff in Hn. destruct Hn as (m & Hm & Hmin).
    exists m. split; [apply list_elem_of_In; exact Hmin | symmetry; exact Hm]. }
  split.
  - intros n t Hn Ht Hc. destruct (Hin n Hn) as (m & _ & Hd).
    unfold describe, injectInto in Hd.
    destruct (type_of m) as [tm|] eqn:Hm.
    + destruct (isComposite tm) eqn:Hcm.
      * injection Hd as _ _ ->. unfold spread.
        rewrite !lookup_union, !lookup_insert. simpl.
        repeat split; rewrite ?union_Some_l; reflexivity.
      * injection Hd as Hty _ _. congruence.
    + injection Hd as Hty _ _. congruence.
  - intros n t Hn Ht Hc. destruct (Hin n Hn) as (m & Hm & Hd).
    exists m. split; [exact Hm|]. rewrite Hd.
    unfold describe, injectInto in *.
    destruct (type_of m) as [tm|] eqn:Htm; [|reflexivity].
    destruct (isComposite tm) eqn:Hcm; [|reflexivity].
    injection Hd as Hty _ _. congruence.
Qed.

(** A host wrapper is left alone and the component inside it is reached. *)
Example deepCloneWithProps_through_host :
  map describe
    (elements (deepCloneWithProps Samples.plainKey
                 (RElement (Host "div") None None {[ "className" := PString "w-full" ]}
                    (RArray [RString "t"; Samples.section "s" "body"]))
                 Samples.capabilities))
  = [ (Some (Host "div"), None, {[ "className" := PString "w-full" ]});
      (Some Section_, Some "s", spread Samples.capabilities) ].
Proof. reflexivity. Qed.

(** A child that is the number zero (or the empty string) is falsy: the
    clone is given [undefined] as its children and the text is gone. *)
Example deepCloneWithProps_falsy_child :
  props_children (deepCloneWithProps Samples.plainKey
                    (RElement (Host "span") None None ∅ (RNumber 0))
                    Samples.capabilities)
  = RUndefined.
Proof. reflexivity. Qed.

(* ===================================================================== *)
(** ** Replacing the content of a section *)
(* ===================================================================== *)






Section replace_facts.
Variable childKey : list nat -> ReactNode -> ReactNode -> string.
Variable targetId : string.
Variable newContent : ReactNode.

Lemma replaced_children c :
  truthy c = true ->
  nodes (Children_map_with childKey RNull
           (fun child => replaceSectionContent childKey child targetId newContent) c)
  = flat_map (fun child => nodes (replaceSectionContent childKey child targetId newContent)) (childList c).
Proof.
  intros Ht. rewrite nodes_Children_map_with by (apply truthy_not_nullish; exact Ht).
  apply flat_map_Forall_ext, Forall_forall. intros x _. destruct x; reflexivity.
Qed.


End replace_facts.







(** Scenario B: committing text to [s1] replaces the children of that
    section by one paragraph and leaves [s2] as it was. *)
Example handleCommitSection_scenario_B :
  map nodes (sectionsAfter (handleCommitSection Samples.plainKey true "s1" "hello")
               Samples.twoSections)
  = [ [Elem FullWidthLayout None {[ "maxWidth" := PString "xl" ]}
         [Elem Section_ (Some "s1") ∅
            [Elem (Host "p") None
               {[ "className" := PString "text-lg text-gray-800 leading-relaxed" ]}
               [Text "hello"]]]];
      nodes (Samples.wrapped (Some "s2") "s2" "two") ]
  /\ effectsOf (handleCommitSection Samples.plainKey true "s1" "hello") Samples.twoSections
     = [AddStructureEdit "s1" "hello"].
Proof. split; reflexivity. Qed.

(** The React values themselves are rebuilt along the way: the children of
    an element that was walked come back as an array of re-keyed entries,
    which is why the comparison is on [nodes]. *)
Example replaceSectionContent_rebuilds_children :
  props_children (replaceSectionContent Samples.plainKey
                    (Samples.wrapped (Some "s2") "s2" "two") "s1" RNull)
  = RArray [RElement Section_ (Some ".0") (Some "s2") ∅ (RArray [RString "two"])].
Proof. reflexivity. Qed.

(* ===================================================================== *)
(** ** More on replacing content: every outermost match, and committing *)
(* ===================================================================== *)

Lemma replaceSectionContent_key childKey element targetId newContent :
  key_of (replaceSectionContent childKey element targetId newContent) = key_of element.
Proof.
  destruct element as [| |b|s|n|items|type key id props children]; try reflexivity.
  cbn [replaceSectionContent].
  destruct (id_is id targetId); [reflexivity|].
  destruct (truthy children); reflexivity.
Qed.

Lemma replaceSectionContent_is_element childKey element targetId newContent :
  isValidElement (replaceSectionContent childKey element targetId newContent)
  = isValidElement element.
Proof.
  destruct element as [| |b|s|n|items|type key id props children]; try reflexivity.
  cbn [replaceSectionContent].
  destruct (id_is id targetId); [reflexivity|].
  destruct (truthy children); reflexivity.
Qed.

Lemma replaceNode_no_element targetId content children :
  elements children = [] ->
  (forall items, children <> RArray items) ->
  map (replaceNode targetId content) (nodes children) = nodes children.
Proof.
  destruct children; try reflexivity.
  - intros _ H. exfalso. exact (H _ eq_refl).
  - discriminate.
Qed.

Lemma replaceSectionContent_nodes_childList childKey targetId newContent children :
  Forall (fun child =>
            nodes (replaceSectionContent childKey child targetId newContent)
            = map (replaceNode targetId (nodes newContent)) (nodes child))
         (childList children).
Proof.
  apply childList_ind; try reflexivity.
  intros type key id props c IH.
  cbn [replaceSectionContent nodes map replaceNode].
  destruct (id_is id targetId).
  - cbn [cloneElement nodes]. rewrite (left_id_L ∅ (∪)). reflexivity.
  - destruct (truthy c) eqn:Ht.
    + cbn [cloneElement nodes]. rewrite (left_id_L ∅ (∪)). do 2 f_equal.
      rewrite (replaced_children childKey targetId newContent c Ht), (nodes_childList c).
      induction IH as [|x l Hx _ IHl]; simpl; [reflexivity|].
      rewrite map_app, Hx, IHl. reflexivity.
    + cbn [nodes]. do 2 f_equal. symmetry.
      destruct c; simpl in *; try reflexivity; discriminate.
Qed.

Lemma replaceSectionContent_nodes_element childKey type key id props children
    targetId newContent :
  nodes (replaceSectionContent childKey (RElement type key id props children)
           targetId newContent)
  = map (replaceNode targetId (nodes newContent))
      (nodes (RElement type key id props children)).
Proof.
  pose proof (replaceSectionContent_nodes_childList childKey targetId newContent
                (RElement type key id props children)) as H.
  cbn [childList] in H. apply Forall_inv in H. exact H.
Qed.

(** X1. Whatever number of elements carry the id, the tree of nodes of the
    result (type, id, props and ordered children of every element; the keys
    of children, their grouping into arrays and null children are not part
    of it) is the tree of nodes of the element in which every element with
    the id that has no ancestor with the id has its children replaced by the
    new content; elements with the id below such an element are gone with
    its old children. *)
Theorem replaceSectionContent_replaces_every_outermost
    (childKey : list nat -> ReactNode -> ReactNode -> string)
    (type : ElementType) (key id : option string) (props : gmap string PropValue)
    (children : ReactNode) (targetId : string) (newContent : ReactNode) :
  nodes (replaceSectionContent childKey (RElement type key id props children)
           targetId newContent)
  = map (replaceNode targetId (nodes newContent))
      (nodes (RElement type key id props children)).
Proof.
  pose proof (replaceSectionContent_nodes_childList childKey targetId newContent
                (RElement type key id props children)) as H.
  cbn [childList] in H. apply Forall_inv in H. exact H.
Qed.

Lemma replaceNode_idempotent targetId content (n : Node) :
  replaceNode targetId content (replaceNode targetId content n)
  = replaceNode targetId content n.
Proof.
  induction n as [s|z|type id props children IH] using Node_induction;
    try reflexivity.
  cbn [replaceNode]. destruct (id_is id targetId) eqn:Hid.
  - cbn [replaceNode]. rewrite Hid. reflexivity.
  - cbn [replaceNode]. rewrite Hid. f_equal. rewrite map_map.
    induction IH as [|x l Hx _ IHl]; simpl; [reflexivity|].
    rewrite Hx, IHl. reflexivity.
Qed.

(** X2. Replacing twice with the same id and content gives the same tree as
    replacing once, also when the new content itself carries the id. *)
Theorem replaceSectionContent_twice
    (childKey : list nat -> ReactNode -> ReactNode -> string)
    (type : ElementType) (key id : option string) (props : gmap string PropValue)
    (children : ReactNode) (targetId : string) (newContent : ReactNode) :
  let once := replaceSectionContent childKey (RElement type key id props children)
                targetId newContent in
  nodes (replaceSectionContent childKey once targetId newContent) = nodes once.
Proof.
  cbv zeta.
  pose proof (replaceSectionContent_is_element childKey
                (RElement type key id props children) targetId newContent) as Hel.
  destruct (replaceSectionContent childKey (RElement type key id props children)
              targetId newContent) as [| |b|s|n|items|t k i p c] eqn:Honce;
    try discriminate.
  rewrite replaceSectionContent_nodes_element.
  rewrite <- Honce, replaceSectionContent_nodes_element.
  rewrite map_map. apply map_ext. intros n. apply replaceNode_idempotent.
Qed.

(** X3. Committing text keeps the number, the order and the keys of the
    top-level elements; the tree of nodes of each of them (type, id, props
    and ordered children of every element; the keys of children, their
    grouping into arrays and null children are not part of it) comes out with
    every outermost section of that id holding one paragraph with the text.
    The list is updated whatever [editing] the handler closed over: when it
    is set one structure edit is recorded, when it is not one warning is
    logged. *)
Theorem handleCommitSection_updates_every_section
    (childKey : list nat -> ReactNode -> ReactNode -> string)
    (editing : bool) (sectionId content : string) (st : State) :
  Forall (fun section => isValidElement section = true) (initialSections st) ->
  let after := sectionsAfter (handleCommitSection childKey editing sectionId content) st in
  let paragraph :=
    Elem (Host "p") None
      {[ "className" := PString "text-lg text-gray-800 leading-relaxed" ]}
      [Text content] in
  length after = length (initialSections st)
  /\ map key_of after = map key_of (initialSections st)
  /\ map nodes after
     = map (fun section => map (replaceNode sectionId [paragraph]) (nodes section))
         (initialSections st)
  /\ effectsOf (handleCommitSection childKey editing sectionId content) st
     = [if editing then AddStructureEdit sectionId content
        else ConsoleWarn "Editing context not found, cannot batch save section add" []].
Proof.
  intros Hel. cbv zeta.
  assert (Hafter : sectionsAfter (handleCommitSection childKey editing sectionId content) st
                   = map (fun section =>
                            replaceSectionContent childKey section sectionId
                              (RElement (Host "p") None None
                                 {[ "className" := PString "text-lg text-gray-800 leading-relaxed" ]}
                                 (RString content)))
                       (initialSections st))
    by (destruct editing; reflexivity).
  rewrite Hafter. split; [apply length_map|]. split; [|split].
  - rewrite map_map. apply map_ext. intros s. apply replaceSectionContent_key.
  - rewrite map_map. apply map_ext_Forall.
    eapply Forall_impl; [exact Hel|]. intros s Hs.
    destruct s; try discriminate.
    apply replaceSectionContent_nodes_element.
  - destruct editing; reflexivity.
Qed.

Lemma handleCommitSection_updates_every_section_witness :
  let after := sectionsAfter (handleCommitSection Samples.plainKey false "s1" "hello")
                 Samples.twoSections in
  let paragraph :=
    Elem (Host "p") None
      {[ "className" := PString "text-lg text-gray-800 leading-relaxed" ]}
      [Text "hello"] in
  length after = length (initialSections Samples.twoSections)
  /\ map key_of after = map key_of (initialSections Samples.twoSections)
  /\ map nodes after
     = map (fun section => map (replaceNode "s1" [paragraph]) (nodes section))
         (initialSections Samples.twoSections)
  /\ effectsOf (handleCommitSection Samples.plainKey false "s1" "hello") Samples.twoSections
     = [ConsoleWarn "Editing context not found, cannot batch save section add" []].
Proof.
  apply (handleCommitSection_updates_every_section Samples.plainKey false "s1" "hello"
           Samples.twoSections).
  repeat constructor.
Defined.

(** What [DraggableSection] resolves on a rebuilt element: its own id when
    that is not empty, and nothing else, since the children of an element
    that was walked are an array and the new content of a target is a
    paragraph without id. *)
Lemma sectionId_replaceSectionContent childKey (section : ReactNode) (targetId : string)
    (type : ElementType) (props : gmap string PropValue) (children : ReactNode) :
  sectionId (replaceSectionContent childKey section targetId
               (RElement type None None props children))
  = if truthyString (props_id section) then props_id section else None.
Proof.
  destruct section as [| |b|s|n|items|type' key id props' children'];
    try reflexivity.
  cbn [replaceSectionContent props_id].
  destruct (id_is id targetId).
  - unfold sectionId. cbn. destruct (truthyString id); reflexivity.
  - destruct (truthy children') eqn:Hc.
    + unfold sectionId. cbn [cloneElement props_id props_children].
      destruct (truthyString id); [reflexivity|].
      destruct children'; try discriminate Hc; reflexivity.
    + unfold sectionId. cbn [props_id props_children]. rewrite Hc.
      destruct (truthyString id); reflexivity.
Qed.

(** X22. After a commit, whatever its id and text, [DraggableSection]
    resolves for each top-level element its own id when that is not empty
    and no id otherwise: the id of a section inside a wrapper, which was
    resolved through the wrapper's single child, is not found any more,
    because the wrapper's children have become an array (or, for the target,
    a paragraph without id). *)
Theorem handleCommitSection_hides_wrapped_ids
    (childKey : list nat -> ReactNode -> ReactNode -> string)
    (editing : bool) (id content : string) (st : State) :
  map sectionId (sectionsAfter (handleCommitSection childKey editing id content) st)
  = map (fun section =>
           if truthyString (props_id section) then props_id section else None)
      (initialSections st).
Proof.
  assert (Hafter : sectionsAfter (handleCommitSection childKey editing id content) st
                   = map (fun section =>
                            replaceSectionContent childKey section id
                              (RElement (Host "p") None None
                                 {[ "className" := PString "text-lg text-gray-800 leading-relaxed" ]}
                                 (RString content)))
                       (initialSections st))
    by (destruct editing; reflexivity).
  rewrite Hafter, map_map. apply map_ext. intros section.
  apply sectionId_replaceSectionContent.
Qed.

(** In scenario A both sections have their id resolved before a commit to
    the first, and neither has after it. *)
Example handleCommitSection_scenario_A_ids :
  map sectionId (initialSections Samples.twoSections) = [Some "s1"; Some "s2"]
  /\ map sectionId
       (sectionsAfter (handleCommitSection Samples.plainKey true "s1" "hello")
          Samples.twoSections)
     = [None; None].
Proof. split; reflexivity. Qed.

(* ===================================================================== *)
(** ** More on the store: deleting, minting ids, adding then deleting *)
(* ===================================================================== *)

Lemma filter_all {A : Type} (p : A -> bool) (l : list A) :
  (forall x, x ∈ l -> p x = true) -> List.filter p l = l.
Proof.
  induction l as [|a l IH]; simpl; intros H; [reflexivity|].
  rewrite (H a) by constructor. f_equal. apply IH.
  intros x Hx. apply H. constructor; exact Hx.
Qed.

Lemma filter_none {A : Type} (p : A -> bool) (l : list A) :
  (forall x, x ∈ l -> p x = false) -> List.filter p l = [].
Proof.
  induction l as [|a l IH]; simpl; intros H; [reflexivity|].
  rewrite (H a) by constructor. apply IH.
  intros x Hx. apply H. constructor; exact Hx.
Qed.

Lemma filter_split_length {A : Type} (p : A -> bool) (l : list A) :
  (length (List.filter p l) + length (List.filter (fun x => negb (p x)) l))%nat = length l.
Proof.
  induction l as [|a l IH]; simpl; [reflexivity|].
  destruct (p a); simpl; lia.
Qed.

Lemma sectionsAfter_bind {A B : Type} (m : M A) (k : A -> M B) (st : State) :
  sectionsAfter (bind m k) st = sectionsAfter (k (fst (fst (m st)))) (snd (fst (m st))).
Proof.
  unfold sectionsAfter, bind. destruct (m st) as [[a st1] out1].
  simpl. destruct (k a st1) as [[b st2] out2]. reflexivity.
Qed.

Lemma sectionsAfter_delete sectionId st :
  sectionsAfter (handleDeleteSection sectionId) st
  = List.filter (fun section => negb (hasSectionId section sectionId)) (initialSections st).
Proof. reflexivity. Qed.

(** X4. Deleting an id that no top-level node contains leaves the list as
    it is, and the delete message is posted all the same. *)
Theorem handleDeleteSection_absent_id (sectionId : string) (st : State) :
  (forall section, section ∈ initialSections st -> hasSectionId section sectionId = false) ->
  sectionsAfter (handleDeleteSection sectionId) st = initialSections st
  /\ effectsOf (handleDeleteSection sectionId) st
     = [PostMessage (CommitSectionDelete sectionId)].
Proof.
  intros Hno. split; [|reflexivity].
  rewrite sectionsAfter_delete. apply filter_all.
  intros x Hx. rewrite (Hno x Hx). reflexivity.
Qed.

Lemma handleDeleteSection_absent_id_witness :
  sectionsAfter (handleDeleteSection "nowhere") Samples.twoSections
  = initialSections Samples.twoSections
  /\ effectsOf (handleDeleteSection "nowhere") Samples.twoSections
     = [PostMessage (CommitSectionDelete "nowhere")].
Proof.
  apply (handleDeleteSection_absent_id "nowhere" Samples.twoSections).
  intros section Hin. unfold Samples.twoSections in Hin. simpl in Hin.
  repeat (apply elem_of_cons in Hin as [->|Hin]; [reflexivity|]).
  inversion Hin.
Defined.

(** X5. Deleting the same id twice leaves the list that deleting it once
    leaves, while the host is notified twice; and the list left by two
    deletions does not depend on their order. *)
Theorem handleDeleteSection_repeat_and_order (a b : string) (st : State) :
  sectionsAfter (handleDeleteSection a ;; handleDeleteSection a)%store st
  = sectionsAfter (handleDeleteSection a) st
  /\ effectsOf (handleDeleteSection a ;; handleDeleteSection a)%store st
     = [PostMessage (CommitSectionDelete a); PostMessage (CommitSectionDelete a)]
  /\ sectionsAfter (handleDeleteSection a ;; handleDeleteSection b)%store st
     = sectionsAfter (handleDeleteSection b ;; handleDeleteSection a)%store st.
Proof.
  split; [|split]; [|reflexivity|].
  - rewrite sectionsAfter_bind, !sectionsAfter_delete. simpl.
    apply filter_all. intros x Hx.
    apply list_elem_of_In, filter_In in Hx. apply Hx.
  - rewrite !sectionsAfter_bind, !sectionsAfter_delete. simpl.
    induction (initialSections st) as [|s l IH]; simpl; [reflexivity|].
    destruct (hasSectionId s a) eqn:Ha, (hasSectionId s b) eqn:Hb; simpl;
      rewrite ?Ha, ?Hb; simpl; rewrite ?IH; reflexivity.
Qed.

Lemma hasSectionId_allIds section targetId :
  hasSectionId section targetId = true -> targetId ∈ omap props_id (elements section).
Proof.
  intros H. apply hasSectionId_true in H as (_ & e & He & Hid).
  apply list_elem_of_omap. exists e. split; assumption.
Qed.

Lemma owners_at_most_one targetId (sections : list ReactNode) :
  NoDup (allIds sections) ->
  (length (List.filter (fun section => hasSectionId section targetId) sections) <= 1)%nat.
Proof.
  unfold allIds. induction sections as [|s l IH]; simpl; intros Hnd; [lia|].
  rewrite omap_app in Hnd. apply NoDup_app in Hnd as (_ & Hdisj & Hl).
  destruct (hasSectionId s targetId) eqn:Hs; [|apply IH; exact Hl].
  simpl. rewrite filter_none; [simpl; lia|].
  intros x Hx. destruct (hasSectionId x targetId) eqn:Hxt; [|reflexivity].
  exfalso. apply (Hdisj targetId (hasSectionId_allIds _ _ Hs)).
  apply list_elem_of_omap.
  apply hasSectionId_true in Hxt as (_ & e & He & Hid).
  exists e. split; [|exact Hid].
  apply list_elem_of_In, in_flat_map. exists x.
  split; apply list_elem_of_In; assumption.
Qed.

(** X6. When no id occurs twice in the whole list, deleting removes at most
    one top-level element, and exactly one when some top-level element
    contains the id. *)
Theorem handleDeleteSection_unique_ids (sectionId : string) (st : State) :
  NoDup (allIds (initialSections st)) ->
  let after := sectionsAfter (handleDeleteSection sectionId) st in
  (length (initialSections st) <= S (length after))%nat
  /\ ((exists owner, owner ∈ initialSections st /\ hasSectionId owner sectionId = true) ->
      length (initialSections st) = S (length after)).
Proof.
  intros Hnd. cbv zeta. rewrite sectionsAfter_delete.
  pose proof (owners_at_most_one sectionId _ Hnd) as Hle.
  pose proof (filter_split_length (fun s => hasSectionId s sectionId) (initialSections st)) as Hsum.
  split; [lia|].
  intros (owner & Hin & Hhas).
  assert (Hpos : (0 < length (List.filter (fun s => hasSectionId s sectionId)
                                (initialSections st)))%nat).
  { assert (Hf : In owner (List.filter (fun s => hasSectionId s sectionId)
                              (initialSections st)))
      by (apply filter_In; split; [apply list_elem_of_In; exact Hin | exact Hhas]).
    destruct (List.filter _ _); [contradiction | simpl; lia]. }
  lia.
Qed.

Lemma handleDeleteSection_unique_ids_witness :
  let after := sectionsAfter (handleDeleteSection "s1") Samples.twoSections in
  (length (initialSections Samples.twoSections) <= S (length after))%nat
  /\ ((exists owner, owner ∈ initialSections Samples.twoSections
                     /\ hasSectionId owner "s1" = true) ->
      length (initialSections Samples.twoSections) = S (length after)).
Proof.
  apply (handleDeleteSection_unique_ids "s1" Samples.twoSections).
  apply (bool_decide_unpack _). vm_compute. exact I.
Defined.

(** *** Minted ids *)

Lemma Number_toString_inj (a b : Z) : Number_toString a = Number_toString b -> a = b.
Proof.
  unfold Number_toString. intros H.
  apply DecimalZ.to_int_inj.
  assert (Hok : forall z, Z.to_int z <> Decimal.Pos Decimal.Nil
                          /\ Z.to_int z <> Decimal.Neg Decimal.Nil).
  { intros [|p|p]; simpl; split; try discriminate;
      intros [= Hp]; exact (DecimalPos.Unsigned.to_uint_nonnil p Hp). }
  destruct (Hok a) as [Ha1 Ha2]. destruct (Hok b) as [Hb1 Hb2].
  pose proof (NilZero.isi _ Ha1 Ha2) as Ia. pose proof (NilZero.isi _ Hb1 Hb2) as Ib.
  rewrite H in Ia. congruence.
Qed.

(** X7. Two clock values give the same id only when they are the same
    value. *)
Theorem newId_determines_clock (a b : Z) : newId a = newId b <-> a = b.
Proof.
  split; [|intros ->; reflexivity].
  unfold newId. simpl. intros H. injection H as H. apply Number_toString_inj. exact H.
Qed.

Lemma hasSectionId_newSection (x : string) : hasSectionId (newSection x) x = true.
Proof.
  unfold newSection. rewrite hasSectionId_elements. simpl.
  rewrite String.eqb_refl. reflexivity.
Qed.

Lemma findIndex_app_found {A : Type} (p : A -> bool) (l : list A) (i : nat) (rest : list A) :
  findIndex p l = Some i ->
  findIndex p (take (S i) l ++ rest) = Some i.
Proof.
  revert i. induction l as [|a l IH]; intros i; simpl; [discriminate|].
  destruct (p a) eqn:Ha.
  - intros H. exact H.
  - destruct (findIndex p l) as [k|] eqn:Hk; simpl; [|discriminate].
    intros [= <-]. rewrite (IH k eq_refl). reflexivity.
Qed.

Lemma sectionsAfter_add now targetId st i :
  findIndex (fun section => hasSectionId section targetId) (initialSections st) = Some i ->
  sectionsAfter (handleAddSection now targetId) st
  = take (S i) (initialSections st) ++ newSection (newId now) :: drop (S i) (initialSections st).
Proof.
  intros Hfind. unfold sectionsAfter, handleAddSection, bind, getInitialSections.
  rewrite Hfind. simpl. rewrite Nat.add_1_r. reflexivity.
Qed.

Lemma stateAfter_add_loading now targetId st :
  initialSections (snd (fst (handleAddSection now targetId st)))
  = sectionsAfter (handleAddSection now targetId) st.
Proof. reflexivity. Qed.

(** X8. Adding a section and then deleting the id just minted gives back
    the list there was, provided that id was not in the list already. *)
Theorem add_then_delete_restores (now : Z) (targetId : string) (st : State) (i : nat) :
  findIndex (fun section => hasSectionId section targetId) (initialSections st) = Some i ->
  (forall section, section ∈ initialSections st -> hasSectionId section (newId now) = false) ->
  sectionsAfter (handleAddSection now targetId ;; handleDeleteSection (newId now))%store st
  = initialSections st.
Proof.
  intros Hfind Hfresh.
  rewrite sectionsAfter_bind, sectionsAfter_delete, stateAfter_add_loading.
  rewrite (sectionsAfter_add now targetId st i Hfind).
  rewrite List.filter_app. cbn [List.filter]. rewrite hasSectionId_newSection.
  cbn [negb].
  rewrite !filter_all.
  - apply take_drop.
  - intros x Hx. rewrite (Hfresh x); [reflexivity|].
    rewrite <- (take_drop (S i) (initialSections st)). apply elem_of_app. right. exact Hx.
  - intros x Hx. rewrite (Hfresh x); [reflexivity|].
    rewrite <- (take_drop (S i) (initialSections st)). apply elem_of_app. left. exact Hx.
Qed.

Lemma add_then_delete_restores_witness :
  sectionsAfter (handleAddSection 42 "s1" ;; handleDeleteSection (newId 42))%store
    Samples.twoSections
  = initialSections Samples.twoSections.
Proof.
  apply (add_then_delete_restores 42 "s1" Samples.twoSections 0); [reflexivity|].
  intros section Hin. unfold Samples.twoSections in Hin. simpl in Hin.
  repeat (apply elem_of_cons in Hin as [->|Hin]; [reflexivity|]).
  inversion Hin.
Defined.

Lemma handleAddSection_of_current now targetId st :
  handleAddSection now targetId st
  = handleAddSectionOf (initialSections st) now targetId st.
Proof.
  unfold handleAddSection, handleAddSectionOf, bind, getInitialSections.
  destruct (findIndex _ (initialSections st)) as [index|]; cbn.
  - reflexivity.
  - reflexivity.
Qed.

(** The handler of a render stores the list of that render with the
    placeholder spliced in; the list in the state plays no part. *)
Lemma sectionsAfter_addOf captured now targetId st i :
  findIndex (fun section => hasSectionId section targetId) captured = Some i ->
  sectionsAfter (handleAddSectionOf captured now targetId) st
  = take (S i) captured ++ newSection (newId now) :: drop (S i) captured.
Proof.
  intros Hfind. unfold sectionsAfter, handleAddSectionOf.
  rewrite Hfind. simpl. rewrite Nat.add_1_r. reflexivity.
Qed.

(** X9. Two additions after the same section at the same clock value. The
    handler searches and slices the list its render closed over and stores
    the result as a plain value. When a render comes between the two calls,
    so that the second handler closed over the list the first one stored,
    two equal placeholders, with the same id and the same key, end up next
    to each other: nothing keeps minted ids apart. When both calls come from
    the handler of one render, the second write replaces the first and one
    placeholder is left. *)
Theorem add_twice_same_clock (now : Z) (targetId : string) (st : State) (i : nat) :
  findIndex (fun section => hasSectionId section targetId) (initialSections st) = Some i ->
  let captured := initialSections st in
  let rendered := sectionsAfter (handleAddSectionOf captured now targetId) st in
  sectionsAfter (handleAddSectionOf captured now targetId ;;
                 handleAddSectionOf rendered now targetId)%store st
  = take (S i) captured
      ++ newSection (newId now) :: newSection (newId now) :: drop (S i) captured
  /\ sectionsAfter (handleAddSectionOf captured now targetId ;;
                    handleAddSectionOf captured now targetId)%store st
     = take (S i) captured ++ newSection (newId now) :: drop (S i) captured.
Proof.
  intros Hfind captured rendered.
  assert (H1 : rendered
               = take (S i) captured ++ newSection (newId now) :: drop (S i) captured)
    by (apply sectionsAfter_addOf; exact Hfind).
  assert (Hlen : (i < length captured)%nat).
  { destruct (findIndex_Some _ _ _ Hfind) as (x & Hx & _). eapply lookup_lt_Some; exact Hx. }
  split.
  - rewrite sectionsAfter_bind.
    rewrite (sectionsAfter_addOf rendered now targetId _ i).
    + rewrite H1. rewrite take_app_le by (rewrite length_take; lia).
      rewrite take_take, Nat.min_id.
      rewrite drop_app_ge by (rewrite length_take; lia).
      rewrite length_take.
      replace (S i - S i `min` length captured)%nat with 0%nat by lia.
      reflexivity.
    + rewrite H1. apply findIndex_app_found. exact Hfind.
  - rewrite sectionsAfter_bind.
    apply sectionsAfter_addOf. exact Hfind.
Qed.

Lemma add_twice_same_clock_witness :
  sectionsAfter
    (handleAddSectionOf (initialSections Samples.twoSections) 42 "s1" ;;
     handleAddSectionOf
       (sectionsAfter (handleAddSectionOf (initialSections Samples.twoSections) 42 "s1")
          Samples.twoSections)
       42 "s1")%store Samples.twoSections
  = take 1 (initialSections Samples.twoSections)
      ++ newSection (newId 42) :: newSection (newId 42)
      :: drop 1 (initialSections Samples.twoSections)
  /\ sectionsAfter
       (handleAddSectionOf (initialSections Samples.twoSections) 42 "s1" ;;
        handleAddSectionOf (initialSections Samples.twoSections) 42 "s1")%store
       Samples.twoSections
     = take 1 (initialSections Samples.twoSections)
         ++ newSection (newId 42) :: drop 1 (initialSections Samples.twoSections).
Proof.
  apply (add_twice_same_clock 42 "s1" Samples.twoSections 0). reflexivity.
Defined.

(* ===================================================================== *)
(** ** Extracted ids are contained ids *)
(* ===================================================================== *)

Lemma head_idsOf_Some l i :
  head (idsOf l) = Some i -> i <> "" /\ i ∈ omap props_id l.
Proof.
  unfold idsOf. intros H.
  assert (Hin : In i (List.filter (fun i => negb (String.eqb i "")) (omap props_id l))).
  { destruct (List.filter _ _) as [|x t]; [discriminate|].
    injection H as ->. left. reflexivity. }
  apply filter_In in Hin as [Hin Hne]. split.
  - intros ->. discriminate.
  - apply list_elem_of_In. exact Hin.
Qed.

Lemma head_idsOf_None l i :
  head (idsOf l) = None -> i <> "" -> i ∉ omap props_id l.
Proof.
  unfold idsOf. intros H Hne Hin.
  assert (Hf : In i (List.filter (fun i => negb (String.eqb i "")) (omap props_id l))).
  { apply filter_In. split; [apply list_elem_of_In; exact Hin|].
    apply negb_true_iff, String.eqb_neq. exact Hne. }
  destruct (List.filter _ _); [contradiction | discriminate].
Qed.

(** X10. The id [getSectionIdFromElement] returns is never empty and is
    one [hasSectionId] finds in the same element; when it returns none, the
    element contains no non-empty id at all. *)
Theorem getSectionIdFromElement_is_contained (element : ReactNode) :
  match getSectionIdFromElement element with
  | Some i => i <> "" /\ hasSectionId element i = true
  | None => forall i, i <> "" -> hasSectionId element i = false
  end.
Proof.
  destruct element as [| |b|s|n|items|type key id props children];
    try (simpl; intros; reflexivity).
  rewrite getSectionIdFromElement_ExtractId. unfold ExtractId. cbn [isValidElement].
  destruct (head (idsOf (elements (RElement type key id props children)))) as [i|] eqn:Hh.
  - apply head_idsOf_Some in Hh as [Hne Hin]. split; [exact Hne|].
    apply hasSectionId_true. split; [reflexivity|].
    apply list_elem_of_omap in Hin. exact Hin.
  - intros i Hne. destruct (hasSectionId _ i) eqn:Hhas; [|reflexivity].
    exfalso. apply (head_idsOf_None _ i Hh Hne).
    apply hasSectionId_allIds. exact Hhas.
Qed.

(* ===================================================================== *)
(** ** More on prop injection *)
(* ===================================================================== *)

Lemma existsb_map_describe (targetId : string) (l : list ReactNode) :
  existsb (fun e => id_is (props_id e) targetId) l
  = existsb (fun d => id_is (snd (fst d)) targetId) (map describe l).
Proof. induction l as [|x l IH]; simpl; [reflexivity|]. rewrite IH. reflexivity. Qed.

Lemma omap_map_describe (l : list ReactNode) :
  omap props_id l = omap (fun d => snd (fst d)) (map describe l).
Proof.
  apply list_omap_ext.
  induction l as [|x l IH]; simpl; constructor; [reflexivity | exact IH].
Qed.

Lemma injectInto_id capabilities d :
  snd (fst (injectInto capabilities d)) = snd (fst d).
Proof.
  destruct d as [[[t|] i] p]; simpl; [|reflexivity].
  destruct (isComposite t); reflexivity.
Qed.

Lemma deepCloneWithProps_element_described childKey type key id rest children props :
  map describe (elements (deepCloneWithProps childKey
                            (RElement type key id rest children) props))
  = map (injectInto (spread props))
      (map describe (elements (RElement type key id rest children))).
Proof.
  pose proof (deepCloneWithProps_described childKey props
                (RElement type key id rest children)) as H.
  cbn [childList] in H. apply Forall_inv in H. exact H.
Qed.

Lemma deepCloneWithProps_shape childKey type key id rest children props :
  exists rest' children',
    deepCloneWithProps childKey (RElement type key id rest children) props
    = RElement type key id rest' children'.
Proof. cbn [deepCloneWithProps cloneElement]. eauto. Qed.

(** X11. The clone contains exactly the ids the element contains:
    [hasSectionId] and [getSectionIdFromElement] give the same answers on
    both, and the key of the element is kept. *)
Theorem deepCloneWithProps_keeps_ids
    (childKey : list nat -> ReactNode -> ReactNode -> string)
    (element : ReactNode) (props : InjectedProps) (targetId : string) :
  hasSectionId (deepCloneWithProps childKey element props) targetId
  = hasSectionId element targetId
  /\ getSectionIdFromElement (deepCloneWithProps childKey element props)
     = getSectionIdFromElement element
  /\ key_of (deepCloneWithProps childKey element props) = key_of element.
Proof.
  destruct element as [| |b|s|n|items|type key id rest children];
    try (repeat split; reflexivity).
  pose proof (deepCloneWithProps_element_described childKey type key id rest children props)
    as Hd.
  destruct (deepCloneWithProps_shape childKey type key id rest children props)
    as (rest' & children' & Heq).
  rewrite Heq in Hd |- *. split; [|split; [|reflexivity]].
  - rewrite !hasSectionId_elements, !existsb_map_describe, Hd.
    generalize (map describe (elements (RElement type key id rest children))).
    intros l. induction l as [|d l IH]; simpl; [reflexivity|].
    rewrite injectInto_id, IH. reflexivity.
  - rewrite !getSectionIdFromElement_ExtractId. unfold ExtractId. cbn [isValidElement].
    unfold idsOf. rewrite !omap_map_describe, Hd. do 2 f_equal.
    apply list_omap_ext.
    generalize (map describe (elements (RElement type key id rest children))).
    intros l. induction l as [|d l IH]; simpl; constructor;
      [apply injectInto_id | exact IH].
Qed.

Lemma map_eq_Forall2 {A B C : Type} (f : A -> C) (g : B -> C) (l1 : list A) (l2 : list B) :
  map f l1 = map g l2 -> Forall2 (fun a b => f a = g b) l1 l2.
Proof.
  revert l2. induction l1 as [|a l1 IH]; intros [|b l2]; simpl; try discriminate.
  - constructor.
  - intros [= Hab Hl]. constructor; [exact Hab | apply IH; exact Hl].
Qed.

(** X12. Element by element, in pre-order, the clone has the type and the
    id of the original, and every prop other than [children] whose name is
    not one of the three capability names has the value it had, on composite
    and opaque elements alike. ([children] is rebuilt by [Children.map].) *)
Theorem deepCloneWithProps_touches_only_capabilities
    (childKey : list nat -> ReactNode -> ReactNode -> string)
    (type : ElementType) (key id : option string) (rest : gmap string PropValue)
    (children : ReactNode) (props : InjectedProps) :
  let element := RElement type key id rest children in
  Forall2
    (fun original clone =>
       type_of clone = type_of original
       /\ props_id clone = props_id original
       /\ (forall name,
              name <> "isPreview" -> name <> "onEditSection" -> name <> "onAddSection" ->
              props_rest clone !! name = props_rest original !! name))
    (elements element)
    (elements (deepCloneWithProps childKey element props)).
Proof.
  cbv zeta.
  pose proof (deepCloneWithProps_element_described childKey type key id rest children props)
    as Hd.
  rewrite map_map in Hd. symmetry in Hd. apply map_eq_Forall2 in Hd.
  eapply Forall2_impl; [exact Hd|].
  intros original clone H. cbn beta in H.
  unfold describe, injectInto in H.
  destruct (type_of original) as [t|] eqn:Ht.
  - destruct (isComposite t) eqn:Hc.
    + injection H as H1 H2 H3. rewrite <- H1, <- H2, <- H3.
      split; [reflexivity|]. split; [reflexivity|].
      intros name N1 N2 N3. unfold spread.
      rewrite lookup_union, !lookup_insert_ne by congruence.
      rewrite lookup_empty. destruct (props_rest original !! name); reflexivity.
    + injection H as H1 H2 H3. rewrite <- H1, <- H2, <- H3.
      split; [reflexivity|]. split; reflexivity.
  - injection H as H1 H2 H3. rewrite <- H1, <- H2, <- H3.
    split; [reflexivity|]. split; reflexivity.
Qed.

Lemma injectNode_no_element capabilities children :
  elements children = [] ->
  (forall items, children <> RArray items) ->
  map (injectNode capabilities) (nodes children) = nodes children.
Proof.
  destruct children; try reflexivity.
  - intros _ H. exfalso. exact (H _ eq_refl).
  - discriminate.
Qed.

Lemma deepCloneWithProps_nodes_childList childKey props children :
  Forall (fun child =>
            Forall (fun e => falsyText (props_children e) = false) (elements child) ->
            nodes (deepCloneWithProps childKey child props)
            = map (injectNode (spread props)) (nodes child))
         (childList children).
Proof.
  apply childList_ind; try reflexivity.
  intros type key id rest c IH Hsafe.
  cbn [elements] in Hsafe. apply Forall_cons in Hsafe as [Hc Hsafe].
  cbn [props_children] in Hc.
  cbn [deepCloneWithProps cloneElement nodes map injectNode].
  do 2 f_equal.
  - destruct type; simpl; rewrite ?(left_id_L ∅ (∪)); reflexivity.
  - destruct (truthy c) eqn:Ht.
    + rewrite nodes_Children_map_with by (apply truthy_not_nullish; exact Ht).
      rewrite (nodes_childList c).
      rewrite (elements_childList c) in Hsafe.
      clear Ht Hc. induction IH as [|x l Hx _ IHl]; simpl; [reflexivity|].
      simpl in Hsafe. apply Forall_app in Hsafe as [Hsx Hsl].
      rewrite map_app, <- (IHl Hsl). f_equal.
      destruct x; try reflexivity; apply Hx; exact Hsx.
    + destruct c; simpl in *; try reflexivity; try discriminate;
        apply negb_false_iff in Ht; congruence.
Qed.

(** X13. When no element of the tree has the empty string or the number
    zero as its whole [children], the clone is the same tree of nodes, text
    included, with the bundle merged into the props of the composite nodes and
    nothing else changed. (Such a falsy text child is dropped: see
    [deepCloneWithProps_falsy_child].) *)
Theorem deepCloneWithProps_keeps_the_tree
    (childKey : list nat -> ReactNode -> ReactNode -> string)
    (type : ElementType) (key id : option string) (rest : gmap string PropValue)
    (children : ReactNode) (props : InjectedProps) :
  let element := RElement type key id rest children in
  Forall (fun e => falsyText (props_children e) = false) (elements element) ->
  nodes (deepCloneWithProps childKey element props)
  = map (injectNode (spread props)) (nodes element).
Proof.
  cbv zeta.
  pose proof (deepCloneWithProps_nodes_childList childKey props
                (RElement type key id rest children)) as H.
  cbn [childList] in H. apply Forall_inv in H. exact H.
Qed.

Lemma deepCloneWithProps_keeps_the_tree_witness :
  nodes (deepCloneWithProps Samples.plainKey Samples.deep Samples.capabilities)
  = map (injectNode (spread Samples.capabilities)) (nodes Samples.deep).
Proof.
  apply (deepCloneWithProps_keeps_the_tree Samples.plainKey
           FullWidthLayout (Some "E") None ∅ _ Samples.capabilities).
  repeat constructor.
Defined.

(* ===================================================================== *)
(** ** The delete capability reaches the store *)
(* ===================================================================== *)

Lemma sectionId_is_contained type key ownId props children i :
  sectionId (RElement type key ownId props children) = Some i ->
  i <> "" ->
  hasSectionId (RElement type key ownId props children) i = true.
Proof.
  unfold sectionId. cbn [props_id props_children].
  rewrite hasSectionId_elements. cbn [elements existsb props_id].
  destruct (truthyString ownId) eqn:Hown.
  - intros -> _. simpl. rewrite String.eqb_refl. reflexivity.
  - destruct children as [| |b|s|n|items|ct ck cid cp cc];
      try (simpl; rewrite ?andb_false_r; discriminate).
    cbn [truthy isValidElement andb props_id elements existsb].
    intros -> _. simpl. rewrite String.eqb_refl. apply orb_true_r.
Qed.

(** X14. With the store's [handleDeleteSection] as the delete callback, the
    [onDelete] of the context provided for a top-level section removes that
    very section from the list (and posts the delete of the resolved id) when
    a non-empty id was resolved, and leaves state and host untouched when
    none was. *)
Theorem onDelete_removes_its_section
    (childKey : list nat -> ReactNode -> ReactNode -> string)
    (type : ElementType) (key ownId : option string) (props : gmap string PropValue)
    (children : ReactNode) (isPreview onEditSection onAddSection : PropValue)
    (st : State) (sent : list Effect) :
  let section := RElement type key ownId props children in
  let deleteInStore (i : string) (s : State * list Effect) :=
    (snd (fst (handleDeleteSection i (fst s))),
     snd s ++ effectsOf (handleDeleteSection i) (fst s)) in
  let provided :=
    fst (DraggableSection childKey section isPreview onEditSection onAddSection
           (Some deleteInStore)) in
  match id provided with
  | Some i =>
      if String.eqb i "" then (onDelete provided (st, sent) = (st, sent))
      else (~ In section (initialSections (fst (onDelete provided (st, sent))))
            /\ snd (onDelete provided (st, sent))
               = sent ++ [PostMessage (CommitSectionDelete i)])
  | None => onDelete provided (st, sent) = (st, sent)
  end.
Proof.
  cbv zeta. cbn [DraggableSection fst id onDelete]. unfold handleDelete.
  destruct (sectionId (RElement type key ownId props children)) as [i|] eqn:Hid;
    [|reflexivity].
  cbn [truthyString]. destruct (String.eqb i "") eqn:Hi; [reflexivity|].
  cbn [negb fst snd]. split; [|reflexivity].
  apply String.eqb_neq in Hi.
  pose proof (sectionId_is_contained _ _ _ _ _ _ Hid Hi) as Hhas.
  change (initialSections (snd (fst (handleDeleteSection i st))))
    with (sectionsAfter (handleDeleteSection i) st).
  rewrite sectionsAfter_delete. intros Hin.
  apply filter_In in Hin as [_ Hneg].
  rewrite Hhas in Hneg. discriminate.
Qed.

(* ===================================================================== *)
(** ** The renderer: keys of the stack, and the typesetting effect *)
(* ===================================================================== *)

Lemma positional_key_inj (i j : nat) :
  String.append "section-" (Number_toString (Z.of_nat i))
  = String.append "section-" (Number_toString (Z.of_nat j)) ->
  i = j.
Proof.
  simpl. intros H. injection H as H.
  apply Number_toString_inj in H. lia.
Qed.

Lemma imap_keys_NoDup {A : Type} (f : nat -> A -> string) (l : list A) :
  (forall i j x y, l !! i = Some x -> l !! j = Some y -> f i x = f j y -> i = j) ->
  NoDup (imap f l).
Proof.
  intros Hinj. apply NoDup_alt. intros i j k Hi Hj.
  rewrite list_lookup_imap in Hi, Hj.
  destruct (l !! i) as [x|] eqn:Hx; [|discriminate].
  destruct (l !! j) as [y|] eqn:Hy; [|discriminate].
  simpl in Hi, Hj. injection Hi as Hi. injection Hj as Hj.
  apply (Hinj i j x y Hx Hy). congruence.
Qed.

Lemma SectionRenderer_keys {S : Type} childKey sections isPreview onEditSection
    onAddSection (onReorder : option (list ReactNode -> S -> S)) onDeleteSection :
  map itemKey (SectionRenderer childKey (Some sections) isPreview onEditSection
                 onAddSection onReorder onDeleteSection)
  = match onReorder with
    | Some _ => imap (fun index section => draggableKey section index) sections
    | None => imap (fun index section => divKey section index) sections
    end.
Proof.
  unfold SectionRenderer. cbn [default].
  destruct onReorder; change (map itemKey ?l) with (itemKey <$> l);
    rewrite fmap_imap; reflexivity.
Qed.

(** X15. Sections that carry neither a key nor an id get pairwise
    different keys in the stack, with or without reordering: the key of the
    one at index [i] is [section-i]. *)
Theorem SectionRenderer_positional_keys_distinct
    (S : Type) (childKey : list nat -> ReactNode -> ReactNode -> string)
    (sections : list ReactNode) (isPreview : option bool)
    (onEditSection onAddSection : PropValue)
    (onReorder : option (list ReactNode -> S -> S))
    (onDeleteSection : option (string -> S -> S)) :
  Forall (fun section => truthyString (key_of section) = false
                         /\ truthyString (props_id section) = false) sections ->
  let items := SectionRenderer childKey (Some sections) isPreview onEditSection
                 onAddSection onReorder onDeleteSection in
  NoDup (map itemKey items)
  /\ map itemKey items
     = imap (fun index _ => String.append "section-" (Number_toString (Z.of_nat index)))
         sections.
Proof.
  intros Hnone. cbv zeta. rewrite SectionRenderer_keys.
  assert (Hor : forall a b, truthyString a = false -> or_else a b = b).
  { intros [s|] b; simpl; [|reflexivity].
    destruct (String.eqb s ""); [reflexivity | discriminate]. }
  assert (Hkeys : match onReorder with
                  | Some _ => imap (fun index section => draggableKey section index) sections
                  | None => imap (fun index section => divKey section index) sections
                  end
                  = imap (fun index _ =>
                            String.append "section-" (Number_toString (Z.of_nat index)))
                      sections).
  { destruct onReorder; apply imap_ext; intros i x Hx;
      destruct (proj1 (Forall_forall _ _) Hnone x (list_elem_of_lookup_2 _ _ _ Hx))
        as [Hk Hi];
      unfold draggableKey, divKey; rewrite ?(Hor _ _ Hk), ?(Hor _ _ Hi); reflexivity. }
  rewrite Hkeys. split; [|reflexivity].
  apply imap_keys_NoDup. intros i j x y _ _. apply positional_key_inj.
Qed.

Lemma SectionRenderer_positional_keys_distinct_witness :
  let items := SectionRenderer (S := State) Samples.plainKey
                 (Some [Samples.anonymous; Samples.anonymous]) None
                 PUndefined PUndefined None None in
  NoDup (map itemKey items)
  /\ map itemKey items
     = imap (fun index _ => String.append "section-" (Number_toString (Z.of_nat index)))
         [Samples.anonymous; Samples.anonymous].
Proof.
  apply (SectionRenderer_positional_keys_distinct State Samples.plainKey
           [Samples.anonymous; Samples.anonymous] None PUndefined PUndefined None None).
  repeat constructor.
Defined.

(** A positional key can still meet the key a section carries itself. *)
Example SectionRenderer_positional_key_collision :
  map itemKey
    (SectionRenderer (S := State) Samples.plainKey
       (Some [Samples.wrapped (Some "section-1") "a" "t"; Samples.anonymous]) None
       PUndefined PUndefined None None)
  = ["section-1"; "section-1"].
Proof. reflexivity. Qed.

(** X16. The typesetting effect lets no exception out, whatever MathJax
    does: a throwing call and a [typesetPromise] whose result is no promise
    are caught. It makes at most one call, none without the stack element or
    without MathJax, and it calls [typeset] only when [typesetPromise] is
    missing. A rejection of the promise of [typesetPromise] is handled; a
    rejection is left unhandled in exactly one case, [typesetPromise] missing
    and [typeset] returning a promise that rejects. *)
Theorem typesetEffect_is_contained (el : bool) (mj : option MathJax) :
  propagating (typesetEffect el mj) = false
  /\ (length (calls (typesetEffect el mj)) <= 1)%nat
  /\ (In CalledTypeset (calls (typesetEffect el mj)) ->
      exists api, mj = Some api /\ typesetPromise api = None /\ el = true)
  /\ (el = false \/ mj = None -> calls (typesetEffect el mj) = [])
  /\ (unhandledRejection (typesetEffect el mj) = true
      <-> el = true
          /\ exists api, mj = Some api /\ typesetPromise api = None
                         /\ typeset api = Some (Returned (Promise Rejected))).
Proof.
  destruct el;
    [destruct mj as [[[[[|r]|]|] [[[|[|]]|]|]]|]|destruct mj as [api|]];
    cbn.
  all: split; [reflexivity|].
  all: split; [lia|].
  all: split;
    [intros H;
     first [ solve [destruct H as [H|[]]; discriminate H]
           | solve [destruct H]
           | solve [eexists; split; [reflexivity|split; reflexivity]] ]|].
  all: split; [intros [H|H]; first [discriminate H | reflexivity]|].
  all: split;
    [intros H;
     first [ discriminate H
           | split; [reflexivity|eexists; split; [reflexivity|split; reflexivity]] ]
    |intros (He & api' & Hm & Hp & Ht);
     first [ reflexivity
           | discriminate He
           | discriminate Hm
           | injection Hm as <-; cbn in Hp, Ht;
             first [discriminate Hp | discriminate Ht] ]].
Qed.

(* ===================================================================== *)
(** ** The loading effect through its life, and what is shown *)
(* ===================================================================== *)

Lemma loaderRun_app dev events1 events2 l :
  loaderRun dev (events1 ++ events2) l = loaderRun dev events2 (loaderRun dev events1 l).
Proof. unfold loaderRun. apply fold_left_app. Qed.

Lemma last_default_cons {A : Type} (d u : A) (l : list A) :
  default d (last (u :: l)) = default u (last l).
Proof. rewrite last_cons. destruct (last l); reflexivity. Qed.

Lemma loaderRun_updates dev (updates : list (list ReactNode)) :
  forall l,
    cancelled l = false ->
    let l' := loaderRun dev (map WatcherUpdate updates) l in
    cancelled l' = false /\ cleanup l' = cleanup l
    /\ watchersCreated l' = watchersCreated l
    /\ watchersStopped l' = watchersStopped l
    /\ loadingSections (store l') = loadingSections (store l)
    /\ initialSections (store l') = default (initialSections (store l)) (last updates).
Proof.
  induction updates as [|u updates IH]; intros l Hc; cbv zeta.
  - simpl. repeat split; auto.
  - change (loaderRun dev (map WatcherUpdate (u :: updates)) l)
      with (loaderRun dev (map WatcherUpdate updates) (loaderStep dev l (WatcherUpdate u))).
    assert (Hstep : loaderStep dev l (WatcherUpdate u)
                    = {| cancelled := cancelled l; cleanup := cleanup l;
                         watchersCreated := watchersCreated l;
                         watchersStopped := watchersStopped l;
                         store := {| initialSections := u;
                                     loadingSections := loadingSections (store l) |} |})
      by (cbn [loaderStep]; rewrite Hc; reflexivity).
    rewrite Hstep, last_default_cons.
    match goal with |- context [loaderRun dev _ ?l1] =>
      destruct (IH l1 Hc) as (H1 & H2 & H3 & H4 & H5 & H6) end.
    rewrite H1, H2, H3, H4, H5, H6.
    cbn [store initialSections loadingSections cancelled cleanup
           watchersCreated watchersStopped].
    repeat split; reflexivity.
Qed.

(** X17. In development mode, a load followed by any number of watcher
    updates and then teardown creates one watcher and stops it once; the list
    shown before teardown is the last update (the loaded list, or the empty
    list for a result that is no array, when there was no update), and
    whatever arrives after teardown changes nothing. Outside development mode
    no watcher is created or stopped. *)
Theorem loader_watcher_is_stopped
    (secs : option (list ReactNode)) (updates : list (list ReactNode))
    (later : list LoaderEvent) :
  let life := LoadResolved secs :: map WatcherUpdate updates ++ [Teardown] in
  let l := loaderRun true life mounted in
  watchersCreated l = 1%nat /\ watchersStopped l = 1%nat
  /\ cancelled l = true
  /\ initialSections (store l) = default (default [] secs) (last updates)
  /\ loadingSections (store l) = false
  /\ store (loaderRun true (life ++ later) mounted) = store l
  /\ watchersCreated (loaderRun true (life ++ later) mounted) = 1%nat
  /\ watchersCreated (loaderRun false [LoadResolved secs; Teardown] mounted) = 0%nat
  /\ watchersStopped (loaderRun false [LoadResolved secs; Teardown] mounted) = 0%nat.
Proof.
  cbv zeta.
  change (LoadResolved secs :: map WatcherUpdate updates ++ [Teardown])
    with ([LoadResolved secs] ++ map WatcherUpdate updates ++ [Teardown]).
  rewrite <- !app_assoc, !loaderRun_app.
  set (l0 := loaderRun true [LoadResolved secs] mounted).
  assert (Hc0 : cancelled l0 = false) by reflexivity.
  destruct (loaderRun_updates true updates l0 Hc0) as (H1 & H2 & H3 & H4 & H5 & H6).
  set (l1 := loaderRun true (map WatcherUpdate updates) l0) in *.
  assert (Hc2 : cancelled (loaderRun true [Teardown] l1) = true) by reflexivity.
  destruct (loaderRun_cancelled true later _ Hc2) as (_ & G2 & G3 & _).
  rewrite G2, G3.
  cbn [loaderRun fold_left loaderStep watchersCreated watchersStopped cancelled store].
  rewrite H2, H3, H4, H5, H6.
  repeat split; reflexivity.
Qed.

(** X18. The loading screen is shown until the load resolves; after it the
    renderer is shown for a non-empty array and the welcome screen for an
    empty array and for a result that is no array; with teardown before the
    load the loading screen stays, whatever arrives. *)
Theorem render_follows_the_load
    (dev : bool) (secs : option (list ReactNode)) (later : list LoaderEvent) :
  render (store mounted) = LoadingScreen
  /\ render (store (loaderStep dev mounted (LoadResolved secs)))
     = match secs with
       | Some (section :: sections) => SectionsScreen (section :: sections)
       | _ => WelcomeScreen
       end
  /\ render (store (loaderRun dev (Teardown :: later) mounted)) = LoadingScreen.
Proof.
  split; [reflexivity|]. split.
  - destruct dev, secs as [[|s l]|]; reflexivity.
  - cbn [loaderRun fold_left].
    assert (Hc : cancelled (loaderStep dev mounted Teardown) = true) by reflexivity.
    destruct (loaderRun_cancelled dev later _ Hc) as (_ & H & _).
    unfold loaderRun in H. rewrite H. reflexivity.
Qed.

(** X19. Once loaded, deleting an id that every top-level element
    contains, the only one in particular, brings the welcome screen back. *)
Theorem render_after_deleting_all (sectionId : string) (st : State) :
  loadingSections st = false ->
  (forall section, section ∈ initialSections st -> hasSectionId section sectionId = true) ->
  render (snd (fst (handleDeleteSection sectionId st))) = WelcomeScreen.
Proof.
  intros Hload Hall. unfold render.
  change (initialSections (snd (fst (handleDeleteSection sectionId st))))
    with (sectionsAfter (handleDeleteSection sectionId) st).
  rewrite sectionsAfter_delete, filter_none.
  - simpl. rewrite Hload. reflexivity.
  - intros x Hx. rewrite (Hall x Hx). reflexivity.
Qed.

Lemma render_after_deleting_all_witness :
  render (snd (fst (handleDeleteSection "left" Samples.splitOnly))) = WelcomeScreen.
Proof.
  apply (render_after_deleting_all "left" Samples.splitOnly); [reflexivity|].
  intros section Hin. unfold Samples.splitOnly in Hin. simpl in Hin.
  repeat (apply elem_of_cons in Hin as [->|Hin]; [reflexivity|]).
  inversion Hin.
Defined.

(* ===================================================================== *)
(** ** The placeholder of a new section, seen by the other operations *)
(* ===================================================================== *)

(** X21. For the placeholder built at any clock value, every way of
    resolving its id gives the id that was minted: the key stripped of its
    prefix on reorder, [getSectionIdFromElement], the constant [sectionId] of
    the injector, and [hasSectionId] finds it; its key in the stack is its own
    key, at any index. *)
Theorem placeholder_ids_agree (now : Z) (index : nat) :
  let placeholder := newSection (newId now) in
  reorderSectionId placeholder = newId now
  /\ getSectionIdFromElement placeholder = Some (newId now)
  /\ sectionId placeholder = Some (newId now)
  /\ hasSectionId placeholder (newId now) = true
  /\ draggableKey placeholder index = String.append "layout-" (newId now).
Proof.
  cbv zeta. repeat split; try reflexivity.
  apply hasSectionId_newSection.
Qed.
(* ===================================================================== *)
(** ** The section input *)
(* ===================================================================== *)

Section SectionInput_facts.
Import SectionInput.

Lemma trimStart_nil_iff (s : JsString) :
trimStart s = [] <-> Forall (fun c => isWhiteSpace c = true) s.
Proof.
induction s as [|c s IH]; simpl.
- split; [constructor | reflexivity].
- destruct (isWhiteSpace c) eqn:E.
  + rewrite IH. split; [intros H; constructor; assumption | intros H; inversion H; assumption].
  + split; [discriminate | intros H; inversion H; congruence].
Qed.

Lemma trimStart_head (s : JsString) :
match trimStart s with
| [] => True
| c :: _ => isWhiteSpace c = false
end.
Proof.
induction s as [|c s IH]; simpl; [exact I|].
destruct (isWhiteSpace c) eqn:E; [exact IH | exact E].
Qed.

Lemma trim_nil_iff (s : JsString) :
trim s = [] <-> Forall (fun c => isWhiteSpace c = true) s.
Proof.
unfold trim, trimEnd. rewrite <- trimStart_nil_iff.
split.
- intros H. apply (f_equal (@rev N)) in H. rewrite rev_involutive in H. simpl in H.
  apply trimStart_nil_iff in H. apply Forall_rev in H.
  rewrite rev_involutive in H.
  pose proof (trimStart_head s) as Hh.
  destruct (trimStart s) as [|c t]; [reflexivity|].
  inversion H; congruence.
- intros ->. reflexivity.
Qed.

Lemma not_all_white (s : JsString) :
~ Forall (fun c => isWhiteSpace c = true) s
<-> Exists (fun c => isWhiteSpace c = false) s.
Proof.
induction s as [|c s IH].
- split; [intros H; exfalso; apply H; constructor | intros H; inversion H].
- destruct (isWhiteSpace c) eqn:E.
  + split.
    * intros H. apply Exists_cons_tl, IH. intros Hs. apply H. constructor; assumption.
    * intros H Hall. inversion H; subst; [congruence|].
      inversion Hall; subst. apply IH in H1. contradiction.
  + split; [intros _; apply Exists_cons_hd; exact E|].
    intros _ Hall. inversion Hall; congruence.
Qed.

Lemma truthy_trim (s : JsString) :
SectionInput.truthy (trim s) = true <-> Exists (fun c => isWhiteSpace c = false) s.
Proof.
rewrite <- not_all_white, <- trim_nil_iff.
destruct (trim s); simpl; split; congruence.
Qed.

(** C10. [onCommit] is called exactly when the key is Enter, Shift is not
  held and the value has a character that is not white space; it is called
  with the input's id and the value as typed, untrimmed. *)
Theorem handleKeyDown_commits_iff
  (id : string) (value : JsString) (e : KeyboardEvent) (i : string) (v : JsString) :
In (OnCommit i v) (handleKeyDown id value e)
<-> (key e = "Enter" /\ shiftKey e = false
     /\ Exists (fun c => isWhiteSpace c = false) value
     /\ i = id /\ v = value).
Proof.
unfold handleKeyDown. rewrite <- truthy_trim.
destruct (String.eqb (key e) "Enter") eqn:Hk.
- apply String.eqb_eq in Hk. destruct (shiftKey e); simpl.
  + split; [contradiction | intros (_ & ? & _); discriminate].
  + destruct (SectionInput.truthy (trim value)); simpl.
    * split.
      -- intros [H|[H|[]]]; [discriminate|]. injection H as <- <-. auto.
      -- intros (_ & _ & _ & -> & ->). auto.
    * split; [intros [H|[]]; discriminate | intros (_ & _ & ? & _); discriminate].
- apply String.eqb_neq in Hk. simpl.
  split; [contradiction | intros (? & _); contradiction].
Qed.

(** The calls in full: Enter without Shift always prevents the default and
  commits at most once; any other key does nothing. *)
Lemma handleKeyDown_calls (id : string) (value : JsString) (e : KeyboardEvent) :
handleKeyDown id value e
= if String.eqb (key e) "Enter" && negb (shiftKey e) then
    if SectionInput.truthy (trim value)
    then [PreventDefault; OnCommit id value] else [PreventDefault]
  else [].
Proof.
unfold handleKeyDown. destruct (_ && _); [|reflexivity].
destruct (SectionInput.truthy _); reflexivity.
Qed.

(** Leading and trailing blanks are committed as typed; blanks alone are
  not committed. Code units: 32 space, 104 h, 105 i, 10 line feed. *)
Example handleKeyDown_untrimmed :
handleKeyDown "section-42" [32; 104; 105; 32]%N {| key := "Enter"; shiftKey := false |}
= [PreventDefault; OnCommit "section-42" [32; 104; 105; 32]%N]
/\ handleKeyDown "section-42" [32; 10; 160; 8232]%N {| key := "Enter"; shiftKey := false |}
   = [PreventDefault]
/\ handleKeyDown "section-42" [104]%N {| key := "Enter"; shiftKey := true |} = [].
Proof. repeat split; reflexivity. Qed.

(** *** The input over a sequence of events *)

Lemma handleKeyDown_commit_inv (id : string) (value : JsString) (e : KeyboardEvent)
  (i : string) (v : JsString) :
In (OnCommit i v) (handleKeyDown id value e) ->
i = id /\ v = value /\ Exists (fun c => isWhiteSpace c = false) value.
Proof.
rewrite handleKeyDown_calls.
destruct (String.eqb (key e) "Enter" && negb (shiftKey e)); [|intros []].
destruct (SectionInput.truthy (trim value)) eqn:Ht.
- intros [H|[H|[]]]; [discriminate|]. injection H as <- <-.
  split; [reflexivity|]. split; [reflexivity|]. apply truthy_trim. exact Ht.
- intros [H|[]]. discriminate.
Qed.

Lemma inputRun_from (id : string) (events : list InputEvent) :
forall (value : JsString) (made : list Action),
  fst (fold_left (inputStep id) events (value, made))
  = default value
      (last (omap (fun ev => match ev with Change text => Some text | KeyDown _ => None end)
               events))
  /\ (forall i v,
         In (OnCommit i v) (snd (fold_left (inputStep id) events (value, made))) ->
         In (OnCommit i v) made
         \/ (i = id /\ (v = value \/ In (Change v) events)
             /\ Exists (fun c => isWhiteSpace c = false) v)).
Proof.
induction events as [|ev events IH]; intros value made.
- simpl. split; [reflexivity|]. auto.
- destruct ev as [text|e]; cbn [fold_left inputStep fst snd].
  + destruct (IH text made) as [Hv Hc]. split.
    * rewrite Hv. change (omap ?f (Change text :: events)) with (text :: omap f events).
      rewrite last_default_cons. reflexivity.
    * intros i v Hin. destruct (Hc i v Hin) as [H|(Hi & [Hv'|Hv'] & Hne)]; [auto|..];
        right; (split; [exact Hi|]); (split; [|exact Hne]); right.
      -- left. congruence.
      -- right. exact Hv'.
  + destruct (IH value (made ++ handleKeyDown id value e)) as [Hv Hc]. split.
    * rewrite Hv. reflexivity.
    * intros i v Hin. destruct (Hc i v Hin) as [H|(Hi & [Hv'|Hv'] & Hne)].
      -- apply in_app_or in H as [H|H]; [auto|].
         apply handleKeyDown_commit_inv in H as (Hi & Hv' & Hne).
         right. subst. auto.
      -- right. auto.
      -- right. split; [exact Hi|]. split; [|exact Hne]. right. right. exact Hv'.
Qed.

(** X20. Over any sequence of changes and key presses, the value of the
  input is the text of the last change (the empty string before the first):
  a commit does not clear it. Every commit made carries the id of the input
  and a text that some change put there, one with a character that is not
  white space. *)
Theorem inputRun_commits_what_was_typed (id : string) (events : list InputEvent) :
fst (inputRun id events)
= default []
    (last (omap (fun ev => match ev with Change text => Some text | KeyDown _ => None end)
             events))
/\ (forall i v,
       In (OnCommit i v) (snd (inputRun id events)) ->
       i = id /\ In (Change v) events
       /\ Exists (fun c => isWhiteSpace c = false) v).
Proof.
unfold inputRun. destruct (inputRun_from id events [] []) as [Hv Hc].
split; [exact Hv|].
intros i v Hin. destruct (Hc i v Hin) as [[]|(Hi & [Hv'|Hv'] & Hne)].
- subst v. inversion Hne.
- auto.
Qed.

(** Typing, committing with Enter and pressing Enter again commits the
  same text twice. Code units: 104 h, 105 i. *)
Example inputRun_enter_twice :
let enter := KeyDown {| key := "Enter"; shiftKey := false |} in
inputRun "section-42" [Change [104; 105]%N; enter; enter]
= ([104; 105]%N,
   [PreventDefault; OnCommit "section-42" [104; 105]%N;
    PreventDefault; OnCommit "section-42" [104; 105]%N]).
Proof. reflexivity. Qed.

End SectionInput_facts.
